(** * vscode-zenml: the LLM selection service and the fix-recommendation table

    A shallow embedding of

    - [src/services/aiService.ts]: class [AIService] (provider/model
      selection, credential lookup, snippet extraction, the fix request);
    - [src/commands/pipelines/AIStepFixer.ts]: the table of code
      recommendations and the cycling command;
    - the secrets command [registerLLMAPIKey].

    JavaScript strings are modelled by [string]; every string the program
    itself builds or compares against is ASCII.  The host (VS Code
    configuration, secret storage, [process.env], the editor and the chat
    client) is modelled by an explicit [World] record that is threaded
    through the operations, and by the list of host calls an operation
    makes. *)

From Stdlib Require Import String Ascii List Arith Bool Lia.
From stdpp Require Import base option list gmap strings.

Import ListNotations.
Local Open Scope string_scope.
Local Open Scope list_scope.

(** ** JavaScript string primitives *)

Module JS.

(** Truthiness of a [string | null | undefined] value: only a non-empty
    string is truthy. *)
Definition truthy (v : option string) : bool :=
  match v with
  | Some (String _ _) => true
  | _ => false
  end.

(** [s.startsWith(p)]. *)
Definition startsWith (s p : string) : bool := String.prefix p s.

(** [s.slice(n)] for [n >= 0]: the string without its first [n]
    characters, empty when [s] is shorter. *)
Fixpoint slice (n : nat) (s : string) : string :=
  match n, s with
  | O, _ => s
  | S _, EmptyString => EmptyString
  | S k, String _ s' => slice k s'
  end.

(** [s.includes(pat)]: [pat] occurs somewhere in [s]. *)
Fixpoint includes (s pat : string) : bool :=
  String.prefix pat s ||
  match s with
  | EmptyString => false
  | String _ s' => includes s' pat
  end.

Definition is_lower (c : ascii) : bool :=
  ((97 <=? nat_of_ascii c) && (nat_of_ascii c <=? 122))%nat.

Definition is_upper (c : ascii) : bool :=
  ((65 <=? nat_of_ascii c) && (nat_of_ascii c <=? 90))%nat.

Definition upper_char (c : ascii) : ascii :=
  if is_lower c then ascii_of_nat (nat_of_ascii c - 32) else c.

Definition lower_char (c : ascii) : ascii :=
  if is_upper c then ascii_of_nat (nat_of_ascii c + 32) else c.

Fixpoint map_chars (f : ascii -> ascii) (s : string) : string :=
  match s with
  | EmptyString => EmptyString
  | String c s' => String (f c) (map_chars f s')
  end.

(** [s.toUpperCase()] and [s.toLowerCase()] on ASCII letters; other
    characters are left alone. *)
Definition toUpperCase : string -> string := map_chars upper_char.
Definition toLowerCase : string -> string := map_chars lower_char.

(** The scanner behind [s.split(sep)] for a non-empty [sep]: left to
    right, at each position where [sep] occurs the segment read so far
    ([cur]) is closed and the [length sep] characters of the occurrence
    are skipped ([skip] counts the ones still to drop). *)
Fixpoint split_scan (sep : string) (skip : nat) (cur s : string)
  : list string :=
  match s with
  | EmptyString => [cur]
  | String c s' =>
      match skip with
      | S k => split_scan sep k cur s'
      | O =>
          if String.prefix sep s
          then cur :: split_scan sep (String.length sep - 1) EmptyString s'
          else split_scan sep 0 (cur +:+ String c EmptyString) s'
      end
  end.

Fixpoint chars (s : string) : list string :=
  match s with
  | EmptyString => []
  | String c s' => String c EmptyString :: chars s'
  end.

(** [s.split(sep)]; an empty separator splits into single characters. *)
Definition split (sep s : string) : list string :=
  match sep with
  | EmptyString => chars s
  | String _ _ => split_scan sep 0 EmptyString s
  end.

(** The scanner behind [s.replaceAll(pat, rep)] for a non-empty [pat]
    (and a replacement without [$] patterns): every occurrence found
    scanning left to right, without overlap, is replaced by [rep]. *)
Fixpoint replace_scan (pat rep : string) (skip : nat) (s : string)
  : string :=
  match s with
  | EmptyString => EmptyString
  | String c s' =>
      match skip with
      | S k => replace_scan pat rep k s'
      | O =>
          if String.prefix pat s
          then rep +:+ replace_scan pat rep (String.length pat - 1) s'
          else String c (replace_scan pat rep 0 s')
      end
  end.

Fixpoint intersperse (rep s : string) : string :=
  match s with
  | EmptyString => rep
  | String c s' => rep +:+ String c (intersperse rep s')
  end.

(** [s.replaceAll(pat, rep)]; an empty pattern matches between every two
    characters and at both ends. *)
Definition replaceAll (pat rep s : string) : string :=
  match pat with
  | EmptyString => intersperse rep s
  | String _ _ => replace_scan pat rep 0 s
  end.

End JS.

(** ** The host environment *)

(** What the operations read and write outside their own objects: the
    [zenml.llm-model] configuration value ([string | null]), the extension's
    secret storage, and [process.env]. *)
Record World : Type := mkWorld {
  configuration : option string;
  secrets : gmap string string;
  env : gmap string string
}.

Definition set_configuration (v : string) (w : World) : World :=
  mkWorld (Some v) (secrets w) (env w).

Definition set_secret (k v : string) (w : World) : World :=
  mkWorld (configuration w) (<[k := v]> (secrets w)) (env w).

Definition set_env (k v : string) (w : World) : World :=
  mkWorld (configuration w) (secrets w) (<[k := v]> (env w)).

(** The body of a chat-completion request. *)
Record ChatMessage : Type := mkMessage { role : string; content : string }.

Record ChatRequest : Type := mkRequest {
  req_provider : string;
  req_model : string;
  messages : list ChatMessage
}.

(** What [tokenjs.chat.completions.create] does: it throws, or it returns a
    completion whose first choice carries a [string | null] content. *)
Inductive ChatOutcome : Type :=
| ChatThrows
| ChatContent (response : option string).

(** Calls made to the host and to collaborators, in the order made.
    [EditStepFile filePath newContent oldContent open] is a call of the
    private [editStepFile]; [newContent] is [None] when the argument is
    [undefined]. *)
Inductive HostCall : Type :=
| SelectLLM
| ShowErrorMessage (msg : string)
| ShowWarningMessage (msg : string)
| ShowInformationMessage (msg : string)
| ShowQuickPick (labels : list string) (placeHolder : string)
| ShowInputBox (prompt : string)
| ExecuteCommand (command : string)
| ChatCompletion (req : ChatRequest)
| EditStepFile (filePath : string) (newContent : option string)
    (oldContent : string) (open : bool).

(** A call that returns a value or throws an [Error] with a message. *)
Inductive Result (A : Type) : Type :=
| Ok (a : A)
| Throw (message : string).
Arguments Ok {A} a.
Arguments Throw {A} message.

(** ** [src/services/aiService.ts] *)

Inductive SupportedLLMProviders : Type := anthropic | gemini | openai.

(** The string a value of type [SupportedLLMProviders] is at run time. *)
Definition provider_id (p : SupportedLLMProviders) : string :=
  match p with
  | anthropic => "anthropic"
  | gemini => "gemini"
  | openai => "openai"
  end.

Definition supportedLLMProviders : list string :=
  ["anthropic"; "gemini"; "openai"].

Definition supportedAnthropicModels : list string :=
  ["claude-3-5-sonnet-20240620"; "claude-3-opus-20240229";
   "claude-3-haiku-20240307"].

Definition supportedGeminiModels : list string :=
  ["gemini-1.5-pro"; "gemini-1.5-flash"; "gemini-1.0-pro"].

Definition supportedOpenAIModels : list string :=
  ["gpt-4o"; "gpt-4o-mini"; "gpt-4-turbo"; "gpt-3.5-turbo"].

(** The strings of type [SupportedLLMModels]: the union of the three
    model types. *)
Definition SupportedLLMModels : list string :=
  supportedAnthropicModels ++ supportedGeminiModels ++ supportedOpenAIModels.

Record FixMyPipelineResponse : Type := mkResponse {
  message : string;
  code : list (string * string)   (* (language, content) *)
}.

(** What [aiService.ts] imports from [AIStepFixer.ts]: the default export
    is an instance of the class declared there, whose members are the
    field [codeRecommendations] and four methods.  The one name
    [aiService.ts] calls on it is [getInstance]; a name that is not among
    the methods (and that no object inherits) is [undefined], and calling
    it is a [TypeError]. *)
Definition stepFixerMethods : list string :=
  ["createVirtualDocument"; "createCodeRecommendation";
   "updateCodeRecommendation"; "editStepFile"].

Definition stepFixerHasMethod (name : string) : bool :=
  existsb (String.eqb name) stepFixerMethods.

Module AIService.

(** The mutable fields of the service; [None] is [null]. *)
Record t : Type := mk { provider : option string; model : option string }.

Definition supportedModels (p : SupportedLLMProviders) : list string :=
  match p with
  | anthropic => supportedAnthropicModels
  | gemini => supportedGeminiModels
  | openai => supportedOpenAIModels
  end.

Definition encode (str : string) : string := JS.replaceAll "." "%2E" str.

Definition decode (str : string) : string := JS.replaceAll "%2E" "." str.

(** [new AIService(context)].  The destructuring
    [const [provider, model] = configuration.split('.')] leaves [model]
    undefined when the value holds no ['.'], and [decode(undefined)]
    throws a [TypeError]. *)
Definition constructor (w : World) : Result t :=
  match configuration w with
  | None => Ok (mk None None)
  | Some c =>
      match JS.split "." c with
      | p :: m :: _ => Ok (mk (Some (decode p)) (Some (decode m)))
      | _ => Throw "TypeError"
      end
  end.

(** [AIService.getInstance(context)]; [instance] is the static field. *)
Definition getInstance (instance : option t) (w : World) : Result t :=
  match instance with
  | Some i => Ok i
  | None => constructor w
  end.

Definition secretKey (p : string) : string := "zenml." +:+ p +:+ ".key".

Definition keyStr (p : string) : string := JS.toUpperCase p +:+ "_API_KEY".

Definition noKeyMessage (p : string) : string :=
  "No " +:+ p +:+
  " API key configured. Please add an environment variable or save a key through the command palette above and try again.".

(** [setAPIKey]: the world after the call, or the error thrown.  The
    assignment [process.env[keyStr] = apiKey] is taken to take effect, as
    it does for a name that is a legal variable name; the names of the
    three supported providers are. *)
Definition setAPIKey (this : t) (w : World) : Result World :=
  match provider this with
  | Some (String _ _ as p) =>
      let apiKey := secrets w !! secretKey p in
      let w1 :=
        if negb (JS.truthy (env w !! keyStr p)) && JS.truthy apiKey
        then set_env (keyStr p) (default "" apiKey) w
        else w in
      if negb (JS.truthy (env w1 !! keyStr p)) && negb (JS.truthy apiKey)
      then Throw (noKeyMessage p)
      else Ok w1
  | _ => Ok w
  end.

Definition extractPythonSnippets (response : string) : list string :=
  map (fun snippet => JS.slice 7 snippet)
    (List.filter (fun ele => JS.startsWith ele "python")
       (JS.split "```" response)).

Definition systemPrompt : string :=
  "You are an advanced AI programming assistant tasked with troubleshooting pipeline runs for ZenML into an explanation that is both easy to understand and meaningful. Construct an explanation that:
      - Places the emphasis on the 'why' of the error, explaining possible causes of the problem, beyond just detailing what the error is.
      - Do not make any assumptions or invent details that are not supported by the code or the user-provided context
      - For the code snippets, please provide the entire content of the source code with any required edits made
      - Please respond only in markdown syntax".

Definition chatRequest (p m log src : string) : ChatRequest :=
  mkRequest p m
    [ mkMessage "system" systemPrompt;
      mkMessage "user" ("Here is the content of the error message: " +:+ log);
      mkMessage "user"
        ("Here is the source code where the error occured: " +:+ src);
      mkMessage "user"
        "Now, please explain some possible causes of the error. If you identify any code errors that could resolve the issue, please also provide the full content of the source code with the proposed changes made." ].

Definition noModelMessage : string :=
  "No AI model selected. Please select one through the command palette above and try again.".

Definition callFailedMessage : string :=
  "Something went wrong. Please verify your API key is correct and active.".

(** [fixMyPipelineRequest(log, code)]: what the promise settles to ([Ok]
    when it resolves, with [None] for [undefined]; [Throw] when it
    rejects), the host calls made, and the world after.  [chat] stands for
    the chat client.  Without a selection the first thing evaluated is
    [AIStepFixer.getInstance()], a call of a member of the imported
    object. *)
Definition fixMyPipelineRequest (chat : ChatRequest -> ChatOutcome)
    (log src : string) (this : t) (w : World)
  : Result (option FixMyPipelineResponse) * list HostCall * World :=
  match provider this, model this with
  | Some (String _ _ as p), Some (String _ _ as m) =>
      match setAPIKey this w with
      | Throw msg =>
          (Ok None,
           [ShowErrorMessage msg; ExecuteCommand "zenml.registerLLMAPIKey"],
           w)
      | Ok w1 =>
          let req := chatRequest p m log src in
          match chat req with
          | ChatThrows =>
              (Ok None,
               [ChatCompletion req; ShowErrorMessage callFailedMessage],
               w1)
          | ChatContent None => (Ok None, [ChatCompletion req], w1)
          | ChatContent (Some response) =>
              (Ok (Some (mkResponse response
                           (map (fun snippet => ("python", snippet))
                              (extractPythonSnippets response)))),
               [ChatCompletion req], w1)
          end
      end
  | _, _ =>
      if stepFixerHasMethod "getInstance"
      then (Ok None, [SelectLLM; ShowErrorMessage noModelMessage], w)
      else (Throw "TypeError", [], w)
  end.

Definition getSupportedModels (p : SupportedLLMProviders) : list string :=
  supportedModels p.

Definition getSupportedProviders : list string := supportedLLMProviders.

(** [setModel(provider, model)]; the arguments are strings at run time,
    and the configuration update is taken to succeed. *)
Definition setModel (p m : string) (this : t) (w : World) : t * World :=
  (mk (Some (decode p)) (Some (decode m)),
   set_configuration (encode p +:+ "." +:+ encode m) w).

End AIService.

(** ** [src/commands/pipelines/AIStepFixer.ts] *)

Module AIStepFixer.

(** An element of [codeRecommendations].  [currentCodeIndex] is an array
    index; the only value the program ever writes to it is [0]. *)
Record CodeRecommendation : Type := mkRec {
  filePath : string;
  code : list string;
  sourceCode : string;
  currentCodeIndex : nat
}.

(** [codeRecommendations.push({...})] followed by the first edit (the
    default [open = true]); [code[0]] is [undefined] on an empty array. *)
Definition createCodeRecommendation (recs : list CodeRecommendation)
    (path : string) (candidates : list string) (src : string)
  : list CodeRecommendation * list HostCall :=
  (recs ++ [mkRec path candidates src 0],
   [EditStepFile path (candidates !! 0) src true]).

(** The index expression
    [currentCodeIndex + 1 < code.length ? currentCodeIndex + 1 : 0]. *)
Definition nextIndex (rec : CodeRecommendation) : nat :=
  if Nat.ltb (currentCodeIndex rec + 1) (length (code rec))
  then currentCodeIndex rec + 1
  else 0.

(** [updateCodeRecommendation(filePath)]: [find] returns the first entry
    with that path. *)
Definition updateCodeRecommendation (recs : list CodeRecommendation)
    (path : string) : list CodeRecommendation * list HostCall :=
  match List.find (fun rec => String.eqb (filePath rec) path) recs with
  | None => (recs, [])
  | Some rec =>
      (recs,
       [EditStepFile path (code rec !! nextIndex rec) (sourceCode rec) false])
  end.

(** The entries of the table that carry a given path. *)
Definition entriesFor (path : string) (recs : list CodeRecommendation)
  : list CodeRecommendation :=
  List.filter (fun rec => String.eqb (filePath rec) path) recs.

(** A sequence of [createCodeRecommendation] calls, each given by its
    three arguments, run in order on a table. *)
Definition createAll (calls : list (string * list string * string))
    (recs : list CodeRecommendation) : list CodeRecommendation :=
  fold_left
    (fun table '(path, candidates, src) =>
       fst (createCodeRecommendation table path candidates src))
    calls recs.

End AIStepFixer.

(** ** The secrets command [registerLLMAPIKey] *)

Module SecretsCommands.

(** The labels of the quick-pick items. *)
Definition options : list string := ["Anthropic"; "Gemini"; "OpenAI"].

Definition secretKey (label : string) : string :=
  "zenml." +:+ JS.toLowerCase label +:+ ".key".

Definition envKey (label : string) : string :=
  JS.toUpperCase label +:+ "_API_KEY".

Definition canceledMessage : string := "API key input was canceled.".

Definition inputPrompt (label : string) (w : World) : string :=
  if JS.truthy (secrets w !! secretKey label)
  then label +:+ " API Key already exists, enter a new value to update."
  else "Please enter your " +:+ label +:+ " API key".

(** [registerLLMAPIKey(context)].  [picked] is what the quick pick
    resolves to (the label of the chosen item, [None] when dismissed) and
    [entered] what the input box resolves to. *)
Definition registerLLMAPIKey (picked entered : option string) (w : World)
  : World * list HostCall :=
  let pick := ShowQuickPick options "Please select an LLM." in
  match picked with
  | None => (w, [pick; ShowWarningMessage canceledMessage])
  | Some label =>
      let ask := ShowInputBox (inputPrompt label w) in
      match entered with
      | None => (w, [pick; ask; ShowWarningMessage canceledMessage])
      | Some apiKey =>
          (set_env (envKey label) apiKey
             (set_secret (secretKey label) apiKey w),
           [pick; ask;
            ShowInformationMessage
              (label +:+ " API key stored successfully.")])
      end
  end.

End SecretsCommands.

(** ** Fenced code blocks, as Markdown reads them

    Used only to state which inputs hold a python-tagged block: the
    segments between an opening and a closing fence are the ones at odd
    positions among those the fences separate, and the tag of a block is
    its text up to the first white space. *)

Module Markdown.

Fixpoint odd_positions {A : Type} (l : list A) : list A :=
  match l with
  | _ :: x :: l' => x :: odd_positions l'
  | _ => []
  end.

Definition fenced_blocks (s : string) : list string :=
  odd_positions (JS.split "```" s).

Definition is_space (c : ascii) : bool :=
  let n := nat_of_ascii c in
  Nat.eqb n 32 || Nat.eqb n 10 || Nat.eqb n 13 || Nat.eqb n 9.

Fixpoint tag (blk : string) : string :=
  match blk with
  | EmptyString => EmptyString
  | String c blk' => if is_space c then EmptyString else String c (tag blk')
  end.

Definition python_tagged (blk : string) : bool := String.eqb (tag blk) "python".

Definition has_python_block (s : string) : bool :=
  existsb python_tagged (fenced_blocks s).

End Markdown.

(** ** [editStepFile]

    The private method of the step fixer that turns one recommendation
    into a workspace edit.  The helper [findFirstLineNumber] of
    [common/utilities], the file system and the editor's [applyEdit] are
    outside these files and are taken as parameters: the helper gives a
    line number or nothing, reading a file gives its contents or rejects
    with an error, and applying an edit reports success or failure. *)

Module StepFile.

Record Position : Type := mkPosition { line : nat; character : nat }.

Record Range : Type := mkRange { range_start : Position; range_end : Position }.

(** Calls to the file system and the editor, in the order made. *)
Inductive EditorCall : Type :=
| ReadFile (path : string)
| ApplyEdit (path : string) (range : Range) (newContent : option string)
| CompareWithSaved (path : string)
| InformationMessage (msg : string).

Definition LF : ascii := ascii_of_nat 10.

(** The number of occurrences of a character in a string. *)
Fixpoint occurrences (c : ascii) (s : string) : nat :=
  match s with
  | EmptyString => 0
  | String d s' => (if ascii_dec c d then 1 else 0) + occurrences c s'
  end.

Section EditStepFile.

Variable findFirstLineNumber : string -> string -> option nat.
Variable readFile : string -> Result string.
Variable applyEdit : string -> Range -> option string -> bool.

(** [oldRange]: from column 0 of the line where the old content starts
    ([|| 0] when the helper finds none) to column 0 of the line that many
    lines below as [oldContent.split('\n')] has elements. *)
Definition oldRange (fileContents oldContent : string) : Range :=
  let firstLine :=
    mkPosition (default 0 (findFirstLineNumber fileContents oldContent)) 0 in
  let lastLine :=
    mkPosition
      (line firstLine + length (JS.split (String LF "") oldContent)) 0 in
  mkRange firstLine lastLine.

(** [editStepFile(filePath, newContent, oldContent, open)]: the calls
    made, or the error the returned promise rejects with. *)
Definition editStepFile (filePath : string) (newContent : option string)
    (oldContent : string) (open : bool) : Result (list EditorCall) :=
  match readFile filePath with
  | Throw e => Throw e
  | Ok fileContents =>
      let r := oldRange fileContents oldContent in
      let success := applyEdit filePath r newContent in
      Ok ([ReadFile filePath; ApplyEdit filePath r newContent] ++
          (if success && open then [CompareWithSaved filePath]
           else if negb success then [InformationMessage "Error!"]
           else []))
  end.

End EditStepFile.

End StepFile.

(** ** Sequences of step-fixer commands *)

Module Session.

Inductive Command : Type :=
| Create (path : string) (candidates : list string) (src : string)
| Update (path : string).

Definition step (recs : list AIStepFixer.CodeRecommendation) (c : Command)
  : list AIStepFixer.CodeRecommendation * list HostCall :=
  match c with
  | Create path candidates src =>
      AIStepFixer.createCodeRecommendation recs path candidates src
  | Update path => AIStepFixer.updateCodeRecommendation recs path
  end.

(** The table after running the commands in order. *)
Definition run (cmds : list Command)
    (recs : list AIStepFixer.CodeRecommendation)
  : list AIStepFixer.CodeRecommendation :=
  fold_left (fun table c => fst (step table c)) cmds recs.

End Session.

(** * Properties *)

(** ** String primitives *)

Example split_fence :
  JS.split "```" "a```b``````c" = ["a"; "b"; ""; "c"].
Proof. reflexivity. Qed.

Example split_trailing : JS.split "." "a.b." = ["a"; "b"; ""].
Proof. reflexivity. Qed.

Example split_none : JS.split "." "" = [""].
Proof. reflexivity. Qed.

Example replaceAll_dots :
  JS.replaceAll "." "%2E" "gpt-3.5.x" = "gpt-3%2E5%2Ex".
Proof. reflexivity. Qed.

Example upper_openai : JS.toUpperCase "openai-4.x" = "OPENAI-4.X".
Proof. reflexivity. Qed.

Example lower_openai : JS.toLowerCase "OpenAI" = "openai".
Proof. reflexivity. Qed.

Section StringLemmas.

(** stdpp keeps [+:+] from unfolding under [simpl]; its two equations. *)
Lemma append_nil_l (r : string) : "" +:+ r = r.
Proof. reflexivity. Qed.

Lemma append_cons (c : ascii) (s r : string) :
  String c s +:+ r = String c (s +:+ r).
Proof. reflexivity. Qed.

Lemma append_empty_r (s : string) : s +:+ "" = s.
Proof.
  induction s as [|c s IH]; [reflexivity|].
  now rewrite append_cons, IH.
Qed.

Lemma append_assoc (a b c : string) : (a +:+ b) +:+ c = a +:+ (b +:+ c).
Proof.
  induction a as [|x a IH]; [reflexivity|].
  now rewrite !append_cons, IH.
Qed.

Lemma prefix_append (p r : string) : String.prefix p (p +:+ r) = true.
Proof.
  induction p as [|c p IH]; [now destruct r|].
  rewrite append_cons. cbn [String.prefix].
  destruct (ascii_dec c c); [exact IH | congruence].
Qed.

Lemma prefix_inv (p s : string) :
  String.prefix p s = true -> s = p +:+ JS.slice (String.length p) s.
Proof.
  revert s; induction p as [|c p IH]; intros s H.
  - reflexivity.
  - destruct s as [|d s]; [discriminate|].
    cbn [String.prefix] in H.
    destruct (ascii_dec c d) as [->|]; [|discriminate].
    rewrite append_cons. cbn [String.length JS.slice].
    f_equal. now apply IH.
Qed.

Lemma slice_append (p r : string) : JS.slice (String.length p) (p +:+ r) = r.
Proof.
  induction p as [|c p IH]; [now destruct r|].
  rewrite append_cons. exact IH.
Qed.

(** Skipping [k] characters is scanning the string without them. *)
Lemma split_scan_skip (sep : string) (k : nat) :
  forall cur s,
    JS.split_scan sep k cur s = JS.split_scan sep 0 cur (JS.slice k s).
Proof.
  induction k as [|k IH]; intros cur s.
  - now destruct s.
  - destruct s as [|c s]; simpl; [reflexivity | apply IH].
Qed.

Lemma replace_scan_skip (pat rep : string) (k : nat) :
  forall s,
    JS.replace_scan pat rep k s = JS.replace_scan pat rep 0 (JS.slice k s).
Proof.
  induction k as [|k IH]; intros s.
  - now destruct s.
  - destruct s as [|c s]; simpl; [reflexivity | apply IH].
Qed.

(** The three equations of the [split] scanner. *)
Lemma split_scan_nil (sep cur : string) : JS.split_scan sep 0 cur "" = [cur].
Proof. reflexivity. Qed.

Lemma split_scan_match (a : ascii) (sep cur r : string) :
  JS.split_scan (String a sep) 0 cur (String a sep +:+ r)
  = cur :: JS.split_scan (String a sep) 0 "" r.
Proof.
  change (String a sep +:+ r) with (String a (sep +:+ r)).
  cbn [JS.split_scan].
  change (String a (sep +:+ r)) with (String a sep +:+ r).
  rewrite prefix_append. f_equal.
  rewrite split_scan_skip. f_equal.
  replace (String.length (String a sep) - 1) with (String.length sep)
    by (cbn [String.length]; lia).
  apply slice_append.
Qed.

Lemma split_scan_step (sep cur : string) (c : ascii) (s : string) :
  String.prefix sep (String c s) = false ->
  JS.split_scan sep 0 cur (String c s)
  = JS.split_scan sep 0 (cur +:+ String c "") s.
Proof. intros H. cbn [JS.split_scan]. now rewrite H. Qed.

(** The equations of the [replaceAll] scanner. *)
Lemma replace_scan_match (a : ascii) (pat rep r : string) :
  JS.replace_scan (String a pat) rep 0 (String a pat +:+ r)
  = rep +:+ JS.replace_scan (String a pat) rep 0 r.
Proof.
  change (String a pat +:+ r) with (String a (pat +:+ r)).
  cbn [JS.replace_scan].
  change (String a (pat +:+ r)) with (String a pat +:+ r).
  rewrite prefix_append. f_equal.
  rewrite replace_scan_skip. f_equal.
  replace (String.length (String a pat) - 1) with (String.length pat)
    by (cbn [String.length]; lia).
  apply slice_append.
Qed.

Lemma replace_scan_step (pat rep : string) (c : ascii) (s : string) :
  String.prefix pat (String c s) = false ->
  JS.replace_scan pat rep 0 (String c s)
  = String c (JS.replace_scan pat rep 0 s).
Proof. intros H. cbn [JS.replace_scan]. now rewrite H. Qed.

(** A string in which the separator does not occur is one segment. *)
Lemma split_scan_absent (sep : string) :
  forall s cur,
    JS.includes s sep = false ->
    JS.split_scan sep 0 cur s = [cur +:+ s].
Proof.
  induction s as [|c s IH]; intros cur H.
  - cbn [JS.split_scan]. now rewrite append_empty_r.
  - cbn [JS.includes] in H. apply orb_false_iff in H as [Hp Hs].
    rewrite split_scan_step by exact Hp.
    rewrite IH by exact Hs. now rewrite append_assoc, append_cons.
Qed.

Lemma split_absent (sep s : string) :
  sep <> "" -> JS.includes s sep = false -> JS.split sep s = [s].
Proof.
  intros Hsep H. destruct sep as [|a sep]; [congruence|].
  unfold JS.split. now rewrite split_scan_absent.
Qed.

End StringLemmas.

(** ** Encoding of the configuration value *)

Section Encoding.

Import AIService.

Lemma prefix_nil (s : string) : String.prefix "" s = true.
Proof. now destruct s. Qed.

Lemma encode_nil : encode "" = "".
Proof. reflexivity. Qed.

Lemma encode_dot (s : string) : encode (String "." s) = "%2E" +:+ encode s.
Proof.
  unfold encode, JS.replaceAll. cbn [JS.replace_scan String.prefix].
  destruct (ascii_dec "." "."); [|congruence].
  now rewrite prefix_nil.
Qed.

Lemma encode_other (c : ascii) (s : string) :
  c <> "."%char -> encode (String c s) = String c (encode s).
Proof.
  intros Hc. unfold encode, JS.replaceAll.
  cbn [JS.replace_scan String.prefix].
  destruct (ascii_dec "." c); [congruence | reflexivity].
Qed.

Lemma decode_escape (r : string) : decode ("%2E" +:+ r) = String "." (decode r).
Proof. unfold decode, JS.replaceAll. now rewrite replace_scan_match. Qed.

Lemma decode_other (c : ascii) (s : string) :
  String.prefix "%2E" (String c s) = false ->
  decode (String c s) = String c (decode s).
Proof. intros H. unfold decode, JS.replaceAll. now rewrite replace_scan_step. Qed.

(** Encoding creates no [E] and no [2E] at the front of a string. *)
Lemma prefix_E_encode (s : string) :
  String.prefix "E" (encode s) = String.prefix "E" s.
Proof.
  destruct s as [|c s]; [reflexivity|].
  destruct (ascii_dec c ".") as [->|Hc].
  - rewrite encode_dot. reflexivity.
  - rewrite encode_other by exact Hc. cbn [String.prefix].
    destruct (ascii_dec "E" c); [now rewrite !prefix_nil | reflexivity].
Qed.

Lemma prefix_2E_encode (s : string) :
  String.prefix "2E" (encode s) = String.prefix "2E" s.
Proof.
  destruct s as [|c s]; [reflexivity|].
  destruct (ascii_dec c ".") as [->|Hc].
  - rewrite encode_dot. reflexivity.
  - rewrite encode_other by exact Hc.
    change (String.prefix "2E" (String c (encode s)))
      with (if ascii_dec "2" c then String.prefix "E" (encode s) else false).
    change (String.prefix "2E" (String c s))
      with (if ascii_dec "2" c then String.prefix "E" s else false).
    now rewrite prefix_E_encode.
Qed.

Lemma prefix_escape_encode (c : ascii) (s : string) :
  String.prefix "%2E" (String c (encode s))
  = String.prefix "%2E" (String c s).
Proof.
  change (String.prefix "%2E" (String c (encode s)))
    with (if ascii_dec "%" c then String.prefix "2E" (encode s) else false).
  change (String.prefix "%2E" (String c s))
    with (if ascii_dec "%" c then String.prefix "2E" s else false).
  now rewrite prefix_2E_encode.
Qed.

(** [decode] undoes [encode] on every string that does not already hold
    the escape. *)
Lemma decode_encode (s : string) :
  JS.includes s "%2E" = false -> decode (encode s) = s.
Proof.
  induction s as [|c s IH]; intros H; [reflexivity|].
  cbn [JS.includes] in H. apply orb_false_iff in H as [Hp Hs].
  destruct (ascii_dec c ".") as [->|Hc].
  - rewrite encode_dot, decode_escape. now rewrite IH.
  - rewrite encode_other by exact Hc.
    rewrite decode_other by (now rewrite prefix_escape_encode).
    now rewrite IH.
Qed.

(** Without that proviso the round trip fails. *)
Example decode_encode_escape : decode (encode "%2E") = ".".
Proof. reflexivity. Qed.

(** The names the program enumerates: providers and models. *)
Lemma enumerated_names_plain :
  Forall (fun s => JS.includes s "%2E" = false)
    (supportedLLMProviders ++ SupportedLLMModels).
Proof. repeat constructor. Qed.

Lemma provider_id_supported (p : SupportedLLMProviders) :
  In (provider_id p) supportedLLMProviders.
Proof. destruct p; simpl; tauto. Qed.

Lemma supportedModels_typed (p : SupportedLLMProviders) (m : string) :
  In m (supportedModels p) -> In m SupportedLLMModels.
Proof.
  unfold SupportedLLMModels. rewrite !in_app_iff. destruct p; simpl; tauto.
Qed.

Lemma encode_provider_id (p : SupportedLLMProviders) :
  encode (provider_id p) = provider_id p.
Proof. now destruct p. Qed.

Lemma decode_provider_id (p : SupportedLLMProviders) :
  decode (provider_id p) = provider_id p.
Proof. now destruct p. Qed.

End Encoding.

(** C6. For every string of the provider and model enumerations: the
    string does not contain [%2E], and decoding its encoding gives the
    string back. *)
Theorem encode_decode_roundtrip :
  Forall (fun s => JS.includes s "%2E" = false
                   /\ AIService.decode (AIService.encode s) = s)
    (supportedLLMProviders ++ SupportedLLMModels).
Proof.
  apply (List.Forall_impl _ (P := fun s => JS.includes s "%2E" = false)).
  - intros s H. split; [exact H | now apply decode_encode].
  - exact enumerated_names_plain.
Qed.

(** ** The stored selection *)

Section Selection.

Import AIService.

Lemma prefix_char (d c : ascii) (s : string) :
  String.prefix (String d "") (String c s) = if ascii_dec d c then true else false.
Proof. cbn [String.prefix]. now rewrite prefix_nil. Qed.

(** The first occurrence of a one-character separator closes the first
    segment. *)
Lemma split_scan_char_first (d : ascii) :
  forall a cur r,
    JS.includes a (String d "") = false ->
    JS.split_scan (String d "") 0 cur (a +:+ String d r)
    = (cur +:+ a) :: JS.split_scan (String d "") 0 "" r.
Proof.
  induction a as [|c a IH]; intros cur r H.
  - rewrite append_nil_l, append_empty_r.
    exact (split_scan_match d "" cur r).
  - cbn [JS.includes] in H. apply orb_false_iff in H as [Hp Hs].
    rewrite prefix_char in Hp.
    rewrite append_cons, split_scan_step
      by (rewrite prefix_char; exact Hp).
    rewrite IH by exact Hs. now rewrite append_assoc, append_cons.
Qed.

Lemma split_two_fields (a b : string) :
  JS.includes a "." = false -> JS.includes b "." = false ->
  JS.split "." (a +:+ "." +:+ b) = [a; b].
Proof.
  intros Ha Hb. unfold JS.split.
  change ("." +:+ b) with (String "." b).
  rewrite split_scan_char_first by exact Ha.
  now rewrite split_scan_absent.
Qed.

(** An encoded string holds no ['.']. *)
Lemma encode_no_dot (s : string) : JS.includes (encode s) "." = false.
Proof.
  induction s as [|c s IH]; [reflexivity|].
  destruct (ascii_dec c ".") as [->|Hc].
  - rewrite encode_dot.
    change ("%2E" +:+ encode s)
      with (String "%" (String "2" (String "E" (encode s)))).
    cbn [JS.includes]. rewrite !prefix_char, IH. reflexivity.
  - rewrite encode_other by exact Hc.
    cbn [JS.includes]. rewrite prefix_char, IH.
    destruct (ascii_dec "." c); [congruence | reflexivity].
Qed.

Lemma decode_plain (s : string) :
  JS.includes s "%2E" = false -> decode s = s.
Proof.
  induction s as [|c s IH]; intros H; [reflexivity|].
  cbn [JS.includes] in H. apply orb_false_iff in H as [Hp Hs].
  rewrite decode_other by exact Hp. now rewrite IH.
Qed.

(** Writing a pair of escape-free strings and reading the configuration
    back gives the pair. *)
Lemma setModel_constructor (p m : string) (this : t) (w : World) :
  JS.includes p "%2E" = false -> JS.includes m "%2E" = false ->
  fst (setModel p m this w) = mk (Some p) (Some m)
  /\ constructor (snd (setModel p m this w)) = Ok (mk (Some p) (Some m)).
Proof.
  intros Hp Hm. unfold setModel, constructor. cbn [fst snd configuration set_configuration].
  rewrite split_two_fields by apply encode_no_dot.
  now rewrite !decode_encode, !decode_plain.
Qed.

Lemma plain_of_enumerated (s : string) :
  In s (supportedLLMProviders ++ SupportedLLMModels) ->
  JS.includes s "%2E" = false.
Proof.
  intros H. exact (proj1 (List.Forall_forall _ _) enumerated_names_plain s H).
Qed.

End Selection.

(** C7. For every provider and every model of its list, [setModel]
    followed by the constructor's read of the configuration yields exactly
    that pair (and [setModel] leaves the same pair in memory); with no
    configuration value the constructor yields the empty selection. *)
Theorem setModel_then_read (p : SupportedLLMProviders) (m : string)
    (this : AIService.t) (w : World) :
  In m (AIService.getSupportedModels p) ->
  fst (AIService.setModel (provider_id p) m this w)
  = AIService.mk (Some (provider_id p)) (Some m)
  /\ AIService.constructor (snd (AIService.setModel (provider_id p) m this w))
     = Ok (AIService.mk (Some (provider_id p)) (Some m))
  /\ forall w0, configuration w0 = None ->
       AIService.constructor w0 = Ok (AIService.mk None None).
Proof.
  intros Hm.
  assert (Hp' : JS.includes (provider_id p) "%2E" = false).
  { apply plain_of_enumerated, in_or_app. left. apply provider_id_supported. }
  assert (Hm' : JS.includes m "%2E" = false).
  { apply plain_of_enumerated, in_or_app. right.
    now apply (supportedModels_typed p). }
  destruct (setModel_constructor (provider_id p) m this w Hp' Hm') as [H1 H2].
  repeat split; [exact H1 | exact H2 |].
  intros w0 H0. unfold AIService.constructor. now rewrite H0.
Qed.

Lemma setModel_then_read_witness :
  let w := mkWorld None ∅ ∅ in
  let this := AIService.mk None None in
  In "gpt-3.5-turbo" (AIService.getSupportedModels openai)
  /\ AIService.constructor (snd (AIService.setModel "openai" "gpt-3.5-turbo" this w))
     = Ok (AIService.mk (Some "openai") (Some "gpt-3.5-turbo")).
Proof.
  intros w this.
  assert (H : In "gpt-3.5-turbo" (AIService.getSupportedModels openai))
    by (simpl; tauto).
  split; [exact H|].
  exact (proj1 (proj2 (setModel_then_read openai "gpt-3.5-turbo" this w H))).
Defined.

(** C3 (the claim fails). A model of another provider is persisted:
    ["claude-3-opus-20240229"] is not an OpenAI model, and [setModel]
    stores the pair in memory and in the configuration. *)
Lemma setModel_persists_foreign_model :
  ~ In "claude-3-opus-20240229" (AIService.getSupportedModels openai)
  /\ AIService.setModel "openai" "claude-3-opus-20240229"
       (AIService.mk None None) (mkWorld None ∅ ∅)
     = (AIService.mk (Some "openai") (Some "claude-3-opus-20240229"),
        mkWorld (Some "openai.claude-3-opus-20240229") ∅ ∅).
Proof.
  split; [|reflexivity].
  simpl. intros [H|[H|[H|[H|[]]]]]; discriminate H.
Qed.

(** C3 (amended). For every provider and every model string that is not
    in the provider's list, [setModel] does not fail and checks nothing: it
    sets the in-memory pair to the provider and the decoded model and
    persists the provider, a dot and the encoded model. *)
Theorem setModel_unvalidated (p : SupportedLLMProviders) (m : string)
    (this : AIService.t) (w : World) :
  ~ In m (AIService.getSupportedModels p) ->
  AIService.setModel (provider_id p) m this w
  = (AIService.mk (Some (provider_id p)) (Some (AIService.decode m)),
     mkWorld (Some (provider_id p +:+ "." +:+ AIService.encode m))
       (secrets w) (env w)).
Proof.
  intros _. unfold AIService.setModel, set_configuration.
  now rewrite decode_provider_id, encode_provider_id.
Qed.

Lemma setModel_unvalidated_witness :
  ~ In "no-such-model" (AIService.getSupportedModels gemini)
  /\ AIService.setModel "gemini" "no-such-model"
       (AIService.mk None None) (mkWorld None ∅ ∅)
     = (AIService.mk (Some "gemini") (Some "no-such-model"),
        mkWorld (Some "gemini.no-such-model") ∅ ∅).
Proof.
  assert (H : ~ In "no-such-model" (AIService.getSupportedModels gemini)).
  { simpl. intros [H|[H|[H|[]]]]; discriminate H. }
  split; [exact H|].
  exact (setModel_unvalidated gemini "no-such-model"
           (AIService.mk None None) (mkWorld None ∅ ∅) H).
Defined.

(** ** Credentials *)

Section Credentials.

Import AIService.

(** [setAPIKey] for a service whose provider is a non-empty string, by
    the truthiness of the two sources. *)
Lemma setAPIKey_by_source (this : t) (w : World) (a : ascii) (q : string) :
  provider this = Some (String a q) ->
  setAPIKey this w =
    if JS.truthy (env w !! keyStr (String a q)) then Ok w
    else if JS.truthy (secrets w !! secretKey (String a q))
         then Ok (set_env (keyStr (String a q))
                    (default "" (secrets w !! secretKey (String a q))) w)
         else Throw (noKeyMessage (String a q)).
Proof.
  intros Hp. unfold setAPIKey. rewrite Hp. cbv zeta.
  destruct (JS.truthy (env w !! keyStr (String a q))) eqn:He.
  - cbn [negb andb]. now rewrite He.
  - destruct (secrets w !! secretKey (String a q)) as [[|c k]|] eqn:Hs;
      cbn [JS.truthy negb andb default].
    + now rewrite He.
    + unfold set_env at 1. cbn [env].
      now rewrite lookup_insert_eq.
    + now rewrite He.
Qed.

Lemma provider_id_nonempty (p : SupportedLLMProviders) :
  exists a q, provider_id p = String a q.
Proof. destruct p; eauto. Qed.

Lemma truthy_Some (v : string) : v <> "" -> JS.truthy (Some v) = true.
Proof. now destruct v. Qed.

Lemma noKeyMessage_names (p : SupportedLLMProviders) :
  JS.includes (noKeyMessage (provider_id p)) (provider_id p) = true.
Proof. now destruct p. Qed.

End Credentials.

(** C4 (the claim fails). With [OPENAI_API_KEY] set, to the empty string,
    and a stored secret, [setAPIKey] overwrites the variable with the
    secret; and a stored empty secret does not count as a value: the call
    throws although the store holds one. *)
Lemma setAPIKey_overwrites_empty_variable :
  let this := AIService.mk (Some "openai") (Some "gpt-4o") in
  let w := mkWorld None {["zenml.openai.key" := "sk-1"]}
             {["OPENAI_API_KEY" := ""]} in
  let w' := mkWorld None {["zenml.openai.key" := ""]} ∅ in
  env w !! "OPENAI_API_KEY" = Some ""
  /\ (exists w1, AIService.setAPIKey this w = Ok w1
                 /\ env w1 !! "OPENAI_API_KEY" = Some "sk-1"
                 /\ env w1 !! "OPENAI_API_KEY" <> env w !! "OPENAI_API_KEY")
  /\ secrets w' !! "zenml.openai.key" = Some ""
  /\ AIService.setAPIKey this w' = Throw (AIService.noKeyMessage "openai").
Proof.
  intros this w w'. split; [reflexivity|]. split.
  - eexists. split; [vm_compute; reflexivity |].
    split; [reflexivity | discriminate].
  - split; [reflexivity | vm_compute; reflexivity].
Qed.

(** C4 (amended). For every provider, with [K] its [<PROVIDER>_API_KEY]
    variable: if [K] holds a non-empty value the call succeeds and changes
    nothing; if [K] is unset or empty and the secret store holds a
    non-empty value under the provider's key, the call succeeds and [K]
    holds that value afterwards; if both are unset or empty the call throws
    an error whose message names the provider. *)
Theorem setAPIKey_cases (p : SupportedLLMProviders) (this : AIService.t)
    (w : World) :
  AIService.provider this = Some (provider_id p) ->
  let K := AIService.keyStr (provider_id p) in
  let S := AIService.secretKey (provider_id p) in
  (forall v, env w !! K = Some v -> v <> "" ->
     AIService.setAPIKey this w = Ok w)
  /\ (forall k, JS.truthy (env w !! K) = false ->
        secrets w !! S = Some k -> k <> "" ->
        AIService.setAPIKey this w = Ok (set_env K k w)
        /\ env (set_env K k w) !! K = Some k)
  /\ (JS.truthy (env w !! K) = false -> JS.truthy (secrets w !! S) = false ->
      AIService.setAPIKey this w
      = Throw (AIService.noKeyMessage (provider_id p))
      /\ JS.includes (AIService.noKeyMessage (provider_id p)) (provider_id p)
         = true).
Proof.
  intros Hp K S.
  destruct (provider_id_nonempty p) as (a & q & Hid).
  assert (Hu := setAPIKey_by_source this w a q).
  rewrite <- Hid in Hu. specialize (Hu Hp). fold K S in Hu.
  split; [|split].
  - intros v Hv Hne. rewrite Hu, Hv. now rewrite truthy_Some.
  - intros k He Hs Hne. split.
    + rewrite Hu, He, Hs. now rewrite truthy_Some.
    + unfold set_env. cbn [env]. apply lookup_insert_eq.
  - intros He Hs. split.
    + now rewrite Hu, He, Hs.
    + apply noKeyMessage_names.
Qed.

Lemma setAPIKey_cases_witness :
  let this := AIService.mk (Some "gemini") (Some "gemini-1.5-pro") in
  let w1 := mkWorld None ∅ {["GEMINI_API_KEY" := "from-env"]} in
  let w2 := mkWorld None {["zenml.gemini.key" := "stored"]} ∅ in
  let w3 := mkWorld None ∅ ∅ in
  AIService.setAPIKey this w1 = Ok w1
  /\ AIService.setAPIKey this w2 = Ok (set_env "GEMINI_API_KEY" "stored" w2)
  /\ AIService.setAPIKey this w3 = Throw (AIService.noKeyMessage "gemini").
Proof.
  intros this w1 w2 w3. split; [|split].
  - refine (proj1 (setAPIKey_cases gemini this w1 eq_refl) "from-env" _ _);
      [reflexivity | discriminate].
  - refine (proj1 (proj1 (proj2 (setAPIKey_cases gemini this w2 eq_refl))
                     "stored" _ _ _));
      [reflexivity | reflexivity | discriminate].
  - refine (proj1 (proj2 (proj2 (setAPIKey_cases gemini this w3 eq_refl)) _ _));
      reflexivity.
Defined.

(** ** The fix request *)

(** C8 (the code departs from the claim). With the provider or the model
    unset no chat-completion call is made, but the request does not
    resolve to [undefined] either: the object [AIStepFixer.ts] exports has
    no [getInstance], so the call meant to open the selection prompt
    throws, the promise rejects, and neither the prompt nor the error
    message is shown. *)
Theorem fixMyPipelineRequest_no_selection_rejects
    (chat : ChatRequest -> ChatOutcome) (log src : string)
    (this : AIService.t) (w : World) :
  AIService.provider this = None \/ AIService.model this = None ->
  stepFixerHasMethod "getInstance" = false
  /\ AIService.fixMyPipelineRequest chat log src this w
     = (Throw "TypeError", [], w).
Proof.
  intros H. split; [reflexivity|].
  unfold AIService.fixMyPipelineRequest.
  destruct this as [pr mo]. cbn [AIService.provider AIService.model] in *.
  destruct H as [-> | ->]; [reflexivity|].
  destruct pr as [[|a q]|]; reflexivity.
Qed.

Lemma fixMyPipelineRequest_no_selection_rejects_witness :
  let chat := fun _ : ChatRequest => ChatContent (Some "unused") in
  let w := mkWorld None ∅ ∅ in
  AIService.fixMyPipelineRequest chat "NameError: x undefined" "print(x)"
    (AIService.mk None None) w
  = (Throw "TypeError", [], w).
Proof.
  intros chat w.
  exact (proj2 (fixMyPipelineRequest_no_selection_rejects chat
                  "NameError: x undefined" "print(x)"
                  (AIService.mk None None) w (or_introl eq_refl))).
Defined.

(** With a selection but no credential in either source, the error of
    [setAPIKey] is shown, the registration command is started, and no chat
    call is made. *)
Lemma fixMyPipelineRequest_no_credential (chat : ChatRequest -> ChatOutcome)
    (log src : string) (p : SupportedLLMProviders) (m : string) (w : World) :
  m <> "" ->
  JS.truthy (env w !! AIService.keyStr (provider_id p)) = false ->
  JS.truthy (secrets w !! AIService.secretKey (provider_id p)) = false ->
  AIService.fixMyPipelineRequest chat log src
    (AIService.mk (Some (provider_id p)) (Some m)) w
  = (Ok None,
     [ShowErrorMessage (AIService.noKeyMessage (provider_id p));
      ExecuteCommand "zenml.registerLLMAPIKey"],
     w).
Proof.
  intros Hm He Hs.
  destruct (provider_id_nonempty p) as (a & q & Hid).
  rewrite Hid in *.
  assert (Hthrow := setAPIKey_by_source
                      (AIService.mk (Some (String a q)) (Some m)) w a q eq_refl).
  rewrite He, Hs in Hthrow.
  unfold AIService.fixMyPipelineRequest.
  cbn [AIService.provider AIService.model].
  destruct m as [|c m]; [congruence|].
  now rewrite Hthrow.
Qed.

(** With a selection and a credential the request is made and the python
    segments of the answer are returned. *)
Example fixMyPipelineRequest_end_to_end :
  let answer := "Try this: ```python
print(1)
``` and run again." in
  let chat := fun _ : ChatRequest => ChatContent (Some answer) in
  let this := AIService.mk (Some "openai") (Some "gpt-4o") in
  let w := mkWorld (Some "openai.gpt-4o") ∅ {["OPENAI_API_KEY" := "sk-1"]} in
  AIService.fixMyPipelineRequest chat "NameError: x undefined" "print(x)" this w
  = (Ok (Some (mkResponse answer [("python", "print(1)
")])),
     [ChatCompletion
        (AIService.chatRequest "openai" "gpt-4o" "NameError: x undefined"
           "print(x)")],
     w).
Proof. vm_compute. reflexivity. Qed.

(** ** Snippet extraction *)

Lemma extractPythonSnippets_segments (segs : list string) (s : string) :
  JS.split "```" s = segs ->
  AIService.extractPythonSnippets s
  = map (JS.slice 7) (List.filter (fun ele => JS.startsWith ele "python") segs).
Proof. intros <-. reflexivity. Qed.

Lemma prefix_fence_other (c : ascii) (x : string) :
  c <> "`"%char -> String.prefix "```" (String c x) = false.
Proof.
  intros Hc. cbn [String.prefix].
  destruct (ascii_dec "`" c); [congruence | reflexivity].
Qed.

(** After text without backticks, the next fence closes the segment. *)
Lemma split_scan_fence_first :
  forall a cur r,
    JS.includes a "`" = false ->
    JS.split_scan "```" 0 cur (a +:+ "```" +:+ r)
    = (cur +:+ a) :: JS.split_scan "```" 0 "" r.
Proof.
  induction a as [|c a IH]; intros cur r H.
  - rewrite append_nil_l, append_empty_r.
    exact (split_scan_match "`" "``" cur r).
  - cbn [JS.includes] in H. apply orb_false_iff in H as [Hp Hs].
    rewrite prefix_char in Hp.
    assert (Hc : c <> "`"%char)
      by (intros ->; destruct (ascii_dec "`" "`"); congruence).
    rewrite append_cons, split_scan_step by (now apply prefix_fence_other).
    rewrite IH by exact Hs. now rewrite append_assoc, append_cons.
Qed.

(** Text, a fenced block and text, none of them with a backtick of its
    own, are the three segments of the split. *)
Lemma split_one_block (pre blk post : string) :
  JS.includes pre "`" = false -> JS.includes blk "`" = false ->
  JS.includes post "```" = false ->
  JS.split "```" (pre +:+ "```" +:+ blk +:+ "```" +:+ post)
  = [pre; blk; post].
Proof.
  intros Hpre Hblk Hpost. unfold JS.split.
  rewrite split_scan_fence_first by exact Hpre.
  rewrite split_scan_fence_first by exact Hblk.
  now rewrite split_scan_absent.
Qed.

Lemma text_not_python (blk : string) :
  JS.startsWith blk "text" = true -> JS.startsWith blk "python" = false.
Proof.
  unfold JS.startsWith. destruct blk as [|c blk]; [reflexivity|].
  cbn [String.prefix].
  destruct (ascii_dec "t" c) as [<-|]; [reflexivity | discriminate].
Qed.

Lemma extractPythonSnippets_three_segments (s pre blk post : string) :
  JS.split "```" s = [pre; blk; post] ->
  JS.startsWith blk "text" = true ->
  JS.startsWith pre "python" = false ->
  JS.startsWith post "python" = false ->
  AIService.extractPythonSnippets s = [].
Proof.
  intros Hs Hblk Hpre Hpost.
  rewrite (extractPythonSnippets_segments _ _ Hs). cbn [List.filter].
  now rewrite Hpre, Hpost, (text_not_python blk Hblk).
Qed.

Lemma extractPythonSnippets_no_fence (s : string) :
  JS.includes s "```" = false ->
  JS.startsWith s "python" = false ->
  AIService.extractPythonSnippets s = [].
Proof.
  intros Hs Hp.
  rewrite (extractPythonSnippets_segments [s]).
  - cbn [List.filter]. now rewrite Hp.
  - now apply split_absent.
Qed.

(** C5 (the claim fails). A response without any fence that begins with
    [python] yields one snippet, and so does a response whose only fenced
    block is tagged [text] when the text after the block begins with
    [python]. *)
Lemma extractPythonSnippets_takes_prose :
  JS.includes "python is fun" "```" = false
  /\ AIService.extractPythonSnippets "python is fun" = ["is fun"]
  /\ AIService.extractPythonSnippets "python is fun" <> []
  /\ AIService.extractPythonSnippets "see ```text
x
```python is fun"
     = ["is fun"].
Proof. repeat split. discriminate. Qed.

(** C5 (amended). The response [intro ```python\nfoo()\n``` outro] yields
    exactly [foo()\n]; a response that the fences cut into text, one block
    tagged [text] and text yields nothing when neither text begins with
    [python]; a response without fences that does not begin with [python]
    yields nothing. *)
Theorem extractPythonSnippets_cases :
  AIService.extractPythonSnippets "intro ```python
foo()
``` outro"
  = ["foo()
"]
  /\ (forall s pre blk post,
        JS.split "```" s = [pre; blk; post] ->
        JS.startsWith blk "text" = true ->
        JS.startsWith pre "python" = false ->
        JS.startsWith post "python" = false ->
        AIService.extractPythonSnippets s = [])
  /\ (forall s,
        JS.includes s "```" = false ->
        JS.startsWith s "python" = false ->
        AIService.extractPythonSnippets s = []).
Proof.
  split; [reflexivity|]. split.
  - exact extractPythonSnippets_three_segments.
  - exact extractPythonSnippets_no_fence.
Qed.

Lemma extractPythonSnippets_cases_witness :
  AIService.extractPythonSnippets "see ```text
foo()
``` and more" = []
  /\ AIService.extractPythonSnippets "nothing fenced here" = [].
Proof.
  split.
  - refine (proj1 (proj2 extractPythonSnippets_cases) _ "see " "text
foo()
" " and more" _ _ _ _); reflexivity.
  - refine (proj2 (proj2 extractPythonSnippets_cases) _ _ _); reflexivity.
Defined.

(** The same for a response written out as text, a block tagged [text]
    and text. *)
Lemma extractPythonSnippets_text_block (pre body post : string) :
  JS.includes pre "`" = false -> JS.includes body "`" = false ->
  JS.includes post "```" = false ->
  JS.startsWith pre "python" = false ->
  JS.startsWith post "python" = false ->
  AIService.extractPythonSnippets
    (pre +:+ "```" +:+ ("text" +:+ body) +:+ "```" +:+ post) = [].
Proof.
  intros Hpre Hbody Hpost Hp1 Hp2.
  apply (extractPythonSnippets_three_segments _ pre ("text" +:+ body) post);
    [|apply prefix_append|exact Hp1|exact Hp2].
  apply split_one_block; [exact Hpre| |exact Hpost].
  change ("text" +:+ body)
    with (String "t" (String "e" (String "x" (String "t" body)))).
  cbn [JS.includes]. rewrite !prefix_char, Hbody. reflexivity.
Qed.

(** C9. The snippets are exactly the segments of the split on the fence
    that begin with [python], without their first seven characters,
    whatever their position; so a response without a python-tagged block
    can yield a snippet: prose beginning with [python] right after a
    closing fence, or a block tagged [python3]. *)
Theorem extractPythonSnippets_any_segment :
  (forall s x,
     In x (AIService.extractPythonSnippets s) <->
     exists seg, In seg (JS.split "```" s)
                 /\ JS.startsWith seg "python" = true
                 /\ x = JS.slice 7 seg)
  /\ (Markdown.has_python_block "```text
x
```python is great" = false
      /\ AIService.extractPythonSnippets "```text
x
```python is great" = ["is great"])
  /\ (Markdown.has_python_block "```python3
x
```" = false
      /\ AIService.extractPythonSnippets "```python3
x
```" = ["
x
"]).
Proof.
  split; [|repeat split].
  intros s x. unfold AIService.extractPythonSnippets.
  rewrite in_map_iff. split.
  - intros (seg & <- & Hin). apply filter_In in Hin as [Hin Hp]. eauto.
  - intros (seg & Hin & Hp & ->). exists seg. split; [reflexivity|].
    apply filter_In. auto.
Qed.

(** ** The recommendation table *)

Section Recommendations.

Import AIStepFixer.

(** Cycling never writes to the table. *)
Lemma updateCodeRecommendation_table (recs : list CodeRecommendation)
    (path : string) :
  fst (updateCodeRecommendation recs path) = recs.
Proof.
  unfold updateCodeRecommendation.
  now destruct (List.find _ recs).
Qed.

(** The index the cycling command computes is the successor modulo the
    number of candidates. *)
Lemma nextIndex_mod (rec : CodeRecommendation) :
  currentCodeIndex rec < length (code rec) ->
  nextIndex rec = (currentCodeIndex rec + 1) mod length (code rec).
Proof.
  intros Hlt. unfold nextIndex.
  destruct (Nat.ltb_spec (currentCodeIndex rec + 1) (length (code rec)))
    as [H|H].
  - now rewrite Nat.mod_small.
  - replace (currentCodeIndex rec + 1) with (length (code rec)) by lia.
    rewrite Nat.Div0.mod_same. reflexivity.
Qed.

(** What the cycling command does for a tracked path: one non-previewing
    edit with the candidate at the next index. *)
Lemma updateCodeRecommendation_edit (recs : list CodeRecommendation)
    (path : string) (rec : CodeRecommendation) :
  List.find (fun r => String.eqb (filePath r) path) recs = Some rec ->
  currentCodeIndex rec < length (code rec) ->
  updateCodeRecommendation recs path
  = (recs,
     [EditStepFile path
        (code rec !! ((currentCodeIndex rec + 1) mod length (code rec)))
        (sourceCode rec) false]).
Proof.
  intros Hf Hlt. unfold updateCodeRecommendation.
  now rewrite Hf, nextIndex_mod.
Qed.

Lemma createAll_app (calls : list (string * list string * string)) :
  forall recs,
    createAll calls recs
    = recs ++ map (fun '(path, candidates, src) => mkRec path candidates src 0)
                calls.
Proof.
  induction calls as [|[[path candidates] src] calls IH]; intros recs.
  - cbn. now rewrite app_nil_r.
  - unfold createAll in *. cbn [fold_left map].
    rewrite IH. unfold createCodeRecommendation. cbn [fst].
    now rewrite <- app_assoc.
Qed.

End Recommendations.

(** C1 (the code departs from the claim). After
    [createCodeRecommendation] with three candidates, each call of
    [updateCodeRecommendation] applies candidate 1 and leaves the stored
    index at 0; and on an entry whose index is 2 the call applies
    candidate 0 while the stored index stays 2. *)
Theorem updateCodeRecommendation_index_not_stored :
  let t0 := fst (AIStepFixer.createCodeRecommendation [] "a.py"
                   ["c0"; "c1"; "c2"] "src") in
  let t1 := fst (AIStepFixer.updateCodeRecommendation t0 "a.py") in
  let last := [AIStepFixer.mkRec "a.py" ["c0"; "c1"; "c2"] "src" 2] in
  AIStepFixer.updateCodeRecommendation t0 "a.py"
  = (t0, [EditStepFile "a.py" (Some "c1") "src" false])
  /\ AIStepFixer.updateCodeRecommendation t1 "a.py"
     = (t0, [EditStepFile "a.py" (Some "c1") "src" false])
  /\ map AIStepFixer.currentCodeIndex t1 = [0]
  /\ AIStepFixer.updateCodeRecommendation last "a.py"
     = (last, [EditStepFile "a.py" (Some "c0") "src" false])
  /\ map AIStepFixer.currentCodeIndex
       (fst (AIStepFixer.updateCodeRecommendation last "a.py")) = [2].
Proof. repeat split. Qed.

(** C2 (the claim fails). Two creations for one path leave two entries
    for it, and the cycling command then reads the first one: it applies
    the older candidates against the older snippet. *)
Lemma createCodeRecommendation_twice :
  let t1 := fst (AIStepFixer.createCodeRecommendation [] "a.py"
                   ["x0"; "x1"] "old") in
  let t2 := fst (AIStepFixer.createCodeRecommendation t1 "a.py"
                   ["y0"; "y1"] "new") in
  length (AIStepFixer.entriesFor "a.py" t2) = 2
  /\ ~ length (AIStepFixer.entriesFor "a.py" t2) <= 1
  /\ snd (AIStepFixer.updateCodeRecommendation t2 "a.py")
     = [EditStepFile "a.py" (Some "x1") "old" false].
Proof.
  intros t1 t2. split; [reflexivity|]. split; [|reflexivity].
  vm_compute. lia.
Qed.

(** C2 (amended). Every [createCodeRecommendation] call appends one entry
    with index 0 and removes none: a sequence of calls on the empty table
    leaves one entry per call, in call order, so the table holds as many
    entries for a path as there were calls for it. *)
Theorem createCodeRecommendation_appends
    (calls : list (string * list string * string)) (path : string) :
  AIStepFixer.createAll calls []
  = map (fun '(f, candidates, src) => AIStepFixer.mkRec f candidates src 0)
      calls
  /\ length (AIStepFixer.entriesFor path (AIStepFixer.createAll calls []))
     = length (List.filter (fun '(f, _, _) => String.eqb f path) calls).
Proof.
  rewrite createAll_app. cbn [app]. split; [reflexivity|].
  unfold AIStepFixer.entriesFor.
  induction calls as [|[[f candidates] src] calls IH]; [reflexivity|].
  cbn [map List.filter AIStepFixer.filePath].
  destruct (String.eqb f path); cbn [length]; now rewrite IH.
Qed.

(** ** Registering a credential *)

Section Registration.

Import SecretsCommands.

Lemma registerLLMAPIKey_stores (label apiKey : string) (w : World) :
  let w' := fst (registerLLMAPIKey (Some label) (Some apiKey) w) in
  secrets w' !! secretKey label = Some apiKey
  /\ env w' !! envKey label = Some apiKey.
Proof.
  unfold registerLLMAPIKey, set_env, set_secret. cbn [fst secrets env].
  split; apply lookup_insert_eq.
Qed.

(** A non-empty key in the variable [setAPIKey] checks makes it succeed
    without touching the world. *)
Lemma setAPIKey_variable_set (this : AIService.t) (w : World)
    (a : ascii) (q k : string) :
  AIService.provider this = Some (String a q) ->
  env w !! AIService.keyStr (String a q) = Some k -> k <> "" ->
  AIService.setAPIKey this w = Ok w.
Proof.
  intros Hp He Hk. rewrite (setAPIKey_by_source this w a q Hp), He.
  now rewrite truthy_Some.
Qed.

(** With nothing usable in the variable, a non-empty stored secret is
    copied into it. *)
Lemma setAPIKey_secret_stored (this : AIService.t) (w : World)
    (a : ascii) (q k : string) :
  AIService.provider this = Some (String a q) ->
  JS.truthy (env w !! AIService.keyStr (String a q)) = false ->
  secrets w !! AIService.secretKey (String a q) = Some k -> k <> "" ->
  AIService.setAPIKey this w = Ok (set_env (AIService.keyStr (String a q)) k w).
Proof.
  intros Hp He Hs Hk. rewrite (setAPIKey_by_source this w a q Hp), He, Hs.
  now rewrite truthy_Some.
Qed.

End Registration.

(** C10 (the claim fails). The keys agree, yet a registered credential
    need not be found: when the input box is submitted empty for
    [OpenAI], the empty string is stored under the agreed secret key and
    in the agreed variable, and [setAPIKey] for [openai] then throws the
    missing-key error. *)
Lemma registerLLMAPIKey_empty_key_not_found :
  let w' := fst (SecretsCommands.registerLLMAPIKey (Some "OpenAI") (Some "")
                   (mkWorld None ∅ ∅)) in
  SecretsCommands.secretKey "OpenAI" = AIService.secretKey "openai"
  /\ SecretsCommands.envKey "OpenAI" = AIService.keyStr "openai"
  /\ secrets w' !! AIService.secretKey "openai" = Some ""
  /\ env w' !! AIService.keyStr "openai" = Some ""
  /\ AIService.setAPIKey (AIService.mk (Some "openai") (Some "gpt-4o")) w'
     = Throw (AIService.noKeyMessage "openai").
Proof.
  intros w'. repeat split; vm_compute; reflexivity.
Qed.

(** C10 (amended). Label by label, in the order of the two lists: the
    secret key [registerLLMAPIKey] writes is the one [setAPIKey] reads for
    the provider and the variable it sets is the one [setAPIKey] checks,
    so a non-empty credential registered for a provider is found by a
    later [setAPIKey] for that provider: it succeeds on the world the
    registration left, and when the variable has since been lost (unset
    or empty, as in a new process) it reads the stored credential and
    puts it into the variable. *)
Theorem registerLLMAPIKey_credential_found :
  Forall2
    (fun label p =>
       SecretsCommands.secretKey label = AIService.secretKey p
       /\ SecretsCommands.envKey label = AIService.keyStr p
       /\ forall (w : World) (apiKey : string) (this : AIService.t),
            AIService.provider this = Some p -> apiKey <> "" ->
            let w' := fst (SecretsCommands.registerLLMAPIKey
                             (Some label) (Some apiKey) w) in
            secrets w' !! AIService.secretKey p = Some apiKey
            /\ env w' !! AIService.keyStr p = Some apiKey
            /\ AIService.setAPIKey this w' = Ok w'
            /\ forall e : gmap string string,
                 JS.truthy (e !! AIService.keyStr p) = false ->
                 AIService.setAPIKey this
                   (mkWorld (configuration w') (secrets w') e)
                 = Ok (mkWorld (configuration w') (secrets w')
                         (<[AIService.keyStr p := apiKey]> e)))
    SecretsCommands.options supportedLLMProviders.
Proof.
  assert (Hone : forall label a q,
    SecretsCommands.secretKey label = AIService.secretKey (String a q) ->
    SecretsCommands.envKey label = AIService.keyStr (String a q) ->
    forall (w : World) (apiKey : string) (this : AIService.t),
      AIService.provider this = Some (String a q) -> apiKey <> "" ->
      let w' := fst (SecretsCommands.registerLLMAPIKey
                       (Some label) (Some apiKey) w) in
      secrets w' !! AIService.secretKey (String a q) = Some apiKey
      /\ env w' !! AIService.keyStr (String a q) = Some apiKey
      /\ AIService.setAPIKey this w' = Ok w'
      /\ forall e : gmap string string,
           JS.truthy (e !! AIService.keyStr (String a q)) = false ->
           AIService.setAPIKey this
             (mkWorld (configuration w') (secrets w') e)
           = Ok (mkWorld (configuration w') (secrets w')
                   (<[AIService.keyStr (String a q) := apiKey]> e))).
  { intros label a q Hs He w apiKey this Hp Hk w'.
    destruct (registerLLMAPIKey_stores label apiKey w) as [H1 H2].
    fold w' in H1, H2. rewrite Hs in H1. rewrite He in H2.
    split; [exact H1|]. split; [exact H2|]. split.
    - now apply (setAPIKey_variable_set this w' a q apiKey).
    - intros e Hfalsy.
      now rewrite (setAPIKey_secret_stored this
                     (mkWorld (configuration w') (secrets w') e) a q apiKey). }
  unfold SecretsCommands.options, supportedLLMProviders.
  repeat (constructor;
          [split; [reflexivity|]; split; [reflexivity|];
           apply Hone; reflexivity|]).
  constructor.
Qed.

Lemma registerLLMAPIKey_credential_found_witness :
  let this := AIService.mk (Some "openai") (Some "gpt-4o") in
  let w := fst (SecretsCommands.registerLLMAPIKey (Some "OpenAI") (Some "sk-1")
                  (mkWorld None ∅ ∅)) in
  AIService.setAPIKey this w = Ok w
  /\ AIService.setAPIKey this (mkWorld None (secrets w) ∅)
     = Ok (mkWorld None (secrets w) {["OPENAI_API_KEY" := "sk-1"]}).
Proof.
  intros this w.
  pose proof registerLLMAPIKey_credential_found as H.
  unfold SecretsCommands.options, supportedLLMProviders in H.
  apply Forall2_cons_1 in H as [_ H].
  apply Forall2_cons_1 in H as [_ H].
  apply Forall2_cons_1 in H as [(_ & _ & Hw) _].
  assert (Hne : "sk-1" <> "") by discriminate.
  destruct (Hw (mkWorld None ∅ ∅) "sk-1" this eq_refl Hne)
    as (_ & _ & Hsame & Hnew).
  split; [exact Hsame|].
  exact (Hnew ∅ eq_refl).
Defined.

(** * Further properties *)

(** ** Encoding, beyond the enumerated names *)

Section EncodingMore.

Import AIService.

Lemma prefix_escape_head (c : ascii) (s : string) :
  String.prefix "%2E" (String c s) = true -> c = "%"%char.
Proof.
  cbn [String.prefix]. destruct (ascii_dec "%" c); [auto | discriminate].
Qed.

Lemma encode_escape (r : string) : encode ("%2E" +:+ r) = "%2E" +:+ encode r.
Proof.
  change ("%2E" +:+ r) with (String "%" (String "2" (String "E" r))).
  rewrite !encode_other by discriminate. reflexivity.
Qed.

Lemma decode_starts_with_dot (x : string) :
  String.prefix "%2E" x = true -> exists y, decode x = String "." y.
Proof.
  intros H. apply prefix_inv in H. rewrite H, decode_escape. eauto.
Qed.

Lemma slice_length (k : nat) :
  forall s, String.length (JS.slice k s) <= String.length s.
Proof.
  induction k as [|k IH]; intros s; [now destruct s|].
  destruct s as [|c s]; cbn [JS.slice String.length]; [lia|].
  specialize (IH s). lia.
Qed.

(** Decoding an encoded string is decoding the string itself. *)
Lemma decode_encode_decode_bounded (n : nat) :
  forall s, String.length s <= n -> decode (encode s) = decode s.
Proof.
  induction n as [|n IH]; intros s Hn.
  - destruct s; [reflexivity | cbn [String.length] in Hn; lia].
  - destruct s as [|c s]; [reflexivity|].
    cbn [String.length] in Hn.
    destruct (ascii_dec c ".") as [->|Hc].
    + rewrite encode_dot, decode_escape, IH by lia.
      now rewrite decode_other.
    + destruct (String.prefix "%2E" (String c s)) eqn:Hp.
      * pose proof (prefix_inv _ _ Hp) as Hs.
        assert (Hr : String.length (JS.slice (String.length "%2E") (String c s))
                     <= n).
        { change (JS.slice (String.length "%2E") (String c s))
            with (JS.slice 2 s).
          pose proof (slice_length 2 s). lia. }
        rewrite Hs.
        rewrite encode_escape, !decode_escape. f_equal.
        now apply IH.
      * rewrite encode_other by exact Hc.
        rewrite decode_other by (now rewrite prefix_escape_encode).
        rewrite IH by lia. now rewrite decode_other.
Qed.

Lemma decode_encode_decode (s : string) : decode (encode s) = decode s.
Proof. now apply (decode_encode_decode_bounded (String.length s)). Qed.

Lemma decode_encode_differs (s : string) :
  JS.includes s "%2E" = true -> decode (encode s) <> s.
Proof.
  induction s as [|c s IH]; intros H; [discriminate|].
  cbn [JS.includes] in H.
  destruct (String.prefix "%2E" (String c s)) eqn:Hp.
  - assert (Hc := prefix_escape_head _ _ Hp). subst c.
    rewrite encode_other by discriminate.
    rewrite <- prefix_escape_encode in Hp.
    destruct (decode_starts_with_dot _ Hp) as [y ->]. discriminate.
  - cbn [orb] in H. specialize (IH H).
    destruct (ascii_dec c ".") as [->|Hc].
    + rewrite encode_dot, decode_escape. congruence.
    + rewrite encode_other by exact Hc.
      rewrite decode_other by (now rewrite prefix_escape_encode).
      congruence.
Qed.

End EncodingMore.

(** X1. [decode] undoes [encode] on a string exactly when the string does
    not contain the escape [%2E]. *)
Theorem decode_encode_iff (s : string) :
  AIService.decode (AIService.encode s) = s <-> JS.includes s "%2E" = false.
Proof.
  split.
  - intros H. destruct (JS.includes s "%2E") eqn:Hi; [|reflexivity].
    now apply decode_encode_differs in Hi.
  - apply decode_encode.
Qed.

(** X2. The string [setModel] persists has exactly two dot-separated
    fields, the encoded provider and the encoded model, whatever the
    arguments are. *)
Theorem setModel_two_fields (p m : string) (this : AIService.t) (w : World) :
  exists c,
    configuration (snd (AIService.setModel p m this w)) = Some c
    /\ JS.split "." c = [AIService.encode p; AIService.encode m]
    /\ JS.includes (AIService.encode p) "." = false
    /\ JS.includes (AIService.encode m) "." = false.
Proof.
  eexists. split; [reflexivity|].
  split; [|split; apply encode_no_dot].
  apply split_two_fields; apply encode_no_dot.
Qed.

(** X3. Reading the configuration back after [setModel] gives the very
    selection [setModel] left in memory, for all argument strings. *)
Theorem setModel_read_agrees (p m : string) (this : AIService.t) (w : World) :
  AIService.constructor (snd (AIService.setModel p m this w))
  = Ok (fst (AIService.setModel p m this w)).
Proof.
  unfold AIService.setModel, AIService.constructor.
  cbn [fst snd configuration set_configuration].
  rewrite split_two_fields by apply encode_no_dot.
  now rewrite !decode_encode_decode.
Qed.

(** ** Reading a stored configuration value *)

Section ConstructorMore.

Import AIService.

(** The text before the first ['.'] of a string that holds one. *)
Lemma first_dot (s : string) :
  JS.includes s "." = true ->
  exists a r, s = a +:+ String "." r /\ JS.includes a "." = false.
Proof.
  induction s as [|c s IH]; intros H; [discriminate|].
  cbn [JS.includes] in H. rewrite prefix_char in H.
  destruct (ascii_dec "." c) as [<-|Hc].
  - exists "", s. split; reflexivity.
  - cbn [orb] in H. destruct (IH H) as (a & r & -> & Ha).
    exists (String c a), r. split; [reflexivity|].
    cbn [JS.includes]. rewrite prefix_char, Ha.
    destruct (ascii_dec "." c); [congruence | reflexivity].
Qed.

Lemma split_scan_cons (sep : string) :
  forall s k cur, exists x l, JS.split_scan sep k cur s = x :: l.
Proof.
  induction s as [|c s IH]; intros k cur; cbn [JS.split_scan]; [eauto|].
  destruct k as [|k]; [|apply IH].
  destruct (String.prefix sep (String c s)); [eauto | apply IH].
Qed.

Lemma split_dot_first (a r : string) :
  JS.includes a "." = false ->
  exists b l, JS.split "." (a +:+ String "." r) = a :: b :: l.
Proof.
  intros Ha. unfold JS.split. rewrite split_scan_char_first by exact Ha.
  destruct (split_scan_cons "." r 0 "") as (b & l & ->). eauto.
Qed.

End ConstructorMore.

(** X4. The constructor throws exactly when the stored value holds no
    ['.']; no stored value at all is not an error. *)
Theorem constructor_throws_iff (w : World) (c : string) :
  configuration w = Some c ->
  (AIService.constructor w = Throw "TypeError" <-> JS.includes c "." = false)
  /\ ((exists this, AIService.constructor w = Ok this)
      <-> JS.includes c "." = true).
Proof.
  intros Hc. unfold AIService.constructor. rewrite Hc.
  destruct (JS.includes c ".") eqn:Hi.
  - destruct (first_dot c Hi) as (a & r & -> & Ha).
    destruct (split_dot_first a r Ha) as (b & l & ->).
    split; split; try discriminate; eauto.
  - rewrite split_absent by (discriminate || exact Hi).
    split; split; try reflexivity; try discriminate.
    intros [this H]. discriminate.
Qed.

Lemma constructor_throws_iff_witness :
  AIService.constructor (mkWorld (Some "openai") ∅ ∅) = Throw "TypeError".
Proof.
  exact (proj2 (proj1 (constructor_throws_iff (mkWorld (Some "openai") ∅ ∅)
                         "openai" eq_refl)) eq_refl).
Defined.

(** X5. The constructor reads the first two dot-separated fields and
    drops whatever follows a second ['.']. *)
Theorem constructor_first_two_fields (w : World) (a b rest : string) :
  JS.includes a "." = false -> JS.includes b "." = false ->
  configuration w = Some (a +:+ "." +:+ b +:+ "." +:+ rest) ->
  AIService.constructor w
  = Ok (AIService.mk (Some (AIService.decode a)) (Some (AIService.decode b))).
Proof.
  intros Ha Hb Hc. unfold AIService.constructor. rewrite Hc.
  unfold JS.split.
  change ("." +:+ b +:+ "." +:+ rest) with (String "." (b +:+ String "." rest)).
  rewrite split_scan_char_first by exact Ha.
  rewrite split_scan_char_first by exact Hb.
  reflexivity.
Qed.

Lemma constructor_first_two_fields_witness :
  AIService.constructor (mkWorld (Some "openai.gpt-3.5-turbo") ∅ ∅)
  = Ok (AIService.mk (Some "openai") (Some "gpt-3")).
Proof.
  exact (constructor_first_two_fields
           (mkWorld (Some "openai.gpt-3.5-turbo") ∅ ∅)
           "openai" "gpt-3" "5-turbo" eq_refl eq_refl eq_refl).
Defined.

(** ** What [setAPIKey] leaves behind *)

Section SetAPIKeyMore.

Import AIService.

Lemma nonempty_cons (p : string) : p <> "" -> exists a q, p = String a q.
Proof. destruct p; [congruence | eauto]. Qed.

Lemma truthy_inv (v : option string) :
  JS.truthy v = true -> exists k, v = Some k /\ k <> "".
Proof.
  destruct v as [[|c k]|]; try discriminate.
  intros _. eexists. split; [reflexivity | discriminate].
Qed.

End SetAPIKeyMore.

(** A successful [setAPIKey] writes at most the provider's variable. *)
Lemma setAPIKey_ok_frame (this : AIService.t) (w w' : World) (p : string) :
  AIService.provider this = Some p -> p <> "" ->
  AIService.setAPIKey this w = Ok w' ->
  secrets w' = secrets w
  /\ configuration w' = configuration w
  /\ (forall k, k <> AIService.keyStr p -> env w' !! k = env w !! k).
Proof.
  intros Hp Hne H.
  destruct (nonempty_cons p Hne) as (a & q & ->).
  assert (Hu := setAPIKey_by_source this w a q Hp).
  rewrite H in Hu.
  destruct (JS.truthy (env w !! AIService.keyStr (String a q))) eqn:He.
  - injection Hu as ->. auto.
  - destruct (secrets w !! AIService.secretKey (String a q)) as [[|c k]|];
      cbn [JS.truthy from_option id] in Hu; try discriminate.
    injection Hu as ->.
    split; [reflexivity|]. split; [reflexivity|].
    intros k' Hk'. unfold set_env. cbn [env]. now rewrite lookup_insert_ne.
Qed.

(** For a supported provider a successful [setAPIKey] leaves a non-empty
    value in the provider's variable, and is then a fixed point. *)
Lemma setAPIKey_ok_variable (sp : SupportedLLMProviders) (this : AIService.t)
    (w w' : World) :
  AIService.provider this = Some (provider_id sp) ->
  AIService.setAPIKey this w = Ok w' ->
  JS.truthy (env w' !! AIService.keyStr (provider_id sp)) = true
  /\ AIService.setAPIKey this w' = Ok w'.
Proof.
  intros Hp H.
  destruct (provider_id_nonempty sp) as (a & q & Hid). rewrite Hid in *.
  assert (Hu := setAPIKey_by_source this w a q Hp).
  assert (Hu' := setAPIKey_by_source this w' a q Hp).
  rewrite H in Hu.
  destruct (JS.truthy (env w !! AIService.keyStr (String a q))) eqn:He.
  - injection Hu as ->. rewrite Hu', He. auto.
  - destruct (secrets w !! AIService.secretKey (String a q)) as [[|c k]|];
      cbn [JS.truthy from_option id] in Hu; try discriminate.
    injection Hu as ->.
    assert (Hl : env (set_env (AIService.keyStr (String a q)) (String c k) w)
                 !! AIService.keyStr (String a q) = Some (String c k)).
    { unfold set_env. cbn [env]. apply lookup_insert_eq. }
    split; [now rewrite Hl | now rewrite Hu', Hl].
Qed.

(** X6. When [setAPIKey] succeeds for a service whose provider is one of
    the three supported ones, the provider's variable holds a non-empty
    value afterwards, the secret store, the configuration and every other
    variable are as before, and calling it again succeeds and changes
    nothing. *)
Theorem setAPIKey_success (sp : SupportedLLMProviders) (this : AIService.t)
    (w w' : World) :
  AIService.provider this = Some (provider_id sp) ->
  AIService.setAPIKey this w = Ok w' ->
  JS.truthy (env w' !! AIService.keyStr (provider_id sp)) = true
  /\ secrets w' = secrets w
  /\ configuration w' = configuration w
  /\ (forall k, k <> AIService.keyStr (provider_id sp) ->
        env w' !! k = env w !! k)
  /\ AIService.setAPIKey this w' = Ok w'.
Proof.
  intros Hp H.
  destruct (setAPIKey_ok_variable sp this w w' Hp H) as [Hv Hi].
  assert (Hne : provider_id sp <> "") by (destruct sp; discriminate).
  destruct (setAPIKey_ok_frame this w w' (provider_id sp) Hp Hne H)
    as (Hs & Hc & He).
  auto.
Qed.

Lemma setAPIKey_success_witness :
  let this := AIService.mk (Some "openai") (Some "gpt-4o") in
  let w := mkWorld None {["zenml.openai.key" := "sk-1"]} ∅ in
  let w' := set_env "OPENAI_API_KEY" "sk-1" w in
  AIService.setAPIKey this w = Ok w'
  /\ AIService.setAPIKey this w' = Ok w'.
Proof.
  intros this w w'.
  assert (H : AIService.setAPIKey this w = Ok w') by reflexivity.
  split; [exact H|].
  exact (proj2 (proj2 (proj2 (proj2
    (setAPIKey_success openai this w w' eq_refl H))))).
Defined.

(** X7. For a service with a provider, [setAPIKey] throws exactly when
    neither the provider's variable nor its stored secret holds a
    non-empty value, and the error is then the missing-key message for
    that provider. *)
Theorem setAPIKey_throws_iff (this : AIService.t) (w : World) (p : string) :
  AIService.provider this = Some p -> p <> "" ->
  ((exists msg, AIService.setAPIKey this w = Throw msg)
   <-> JS.truthy (env w !! AIService.keyStr p) = false
       /\ JS.truthy (secrets w !! AIService.secretKey p) = false)
  /\ (forall msg, AIService.setAPIKey this w = Throw msg ->
        msg = AIService.noKeyMessage p).
Proof.
  intros Hp Hne.
  destruct (nonempty_cons p Hne) as (a & q & ->).
  rewrite (setAPIKey_by_source this w a q Hp).
  destruct (JS.truthy (env w !! AIService.keyStr (String a q)));
    [|destruct (JS.truthy (secrets w !! AIService.secretKey (String a q)))].
  - split; [split|]; [intros [msg H] | intros [H _] | intros msg H];
      discriminate.
  - split; [split|]; [intros [msg H] | intros [_ H] | intros msg H];
      discriminate.
  - split; [split|]; [auto | eauto | intros msg H; congruence].
Qed.

Lemma setAPIKey_throws_iff_witness :
  exists msg,
    AIService.setAPIKey (AIService.mk (Some "anthropic") None)
      (mkWorld None ∅ ∅) = Throw msg.
Proof.
  refine (proj2 (proj1 (setAPIKey_throws_iff
            (AIService.mk (Some "anthropic") None) (mkWorld None ∅ ∅)
            "anthropic" eq_refl _)) (conj eq_refl eq_refl)).
  discriminate.
Defined.

(** ** The fix request, path by path *)

(** Goals about membership in a short explicit list of host calls. *)
Ltac host_calls :=
  cbn [fst snd In andb];
  repeat split; intros;
  repeat match goal with
         | H : exists _, _ |- _ => destruct H
         | H : _ /\ _ |- _ => destruct H
         | H : _ \/ _ |- _ => destruct H
         | H : False |- _ => destruct H
         end;
  try discriminate; eauto.

Section FixRequestMore.

Import AIService.

(** The request of a service with a non-empty provider and model. *)
Lemma fixMyPipelineRequest_selected (chat : ChatRequest -> ChatOutcome)
    (log src : string) (a b : ascii) (q r : string) (w : World) :
  let p := String a q in
  let m := String b r in
  let req := chatRequest p m log src in
  fixMyPipelineRequest chat log src (mk (Some p) (Some m)) w =
    match setAPIKey (mk (Some p) (Some m)) w with
    | Throw msg =>
        (Ok None,
         [ShowErrorMessage msg; ExecuteCommand "zenml.registerLLMAPIKey"],
         w)
    | Ok w1 =>
        match chat req with
        | ChatThrows =>
            (Ok None, [ChatCompletion req; ShowErrorMessage callFailedMessage],
             w1)
        | ChatContent None => (Ok None, [ChatCompletion req], w1)
        | ChatContent (Some response) =>
            (Ok (Some (mkResponse response
                         (map (fun snippet => ("python", snippet))
                            (extractPythonSnippets response)))),
             [ChatCompletion req], w1)
        end
    end.
Proof. reflexivity. Qed.

Lemma fixMyPipelineRequest_unselected (chat : ChatRequest -> ChatOutcome)
    (log src : string) (this : t) (w : World) :
  JS.truthy (provider this) = false \/ JS.truthy (model this) = false ->
  fixMyPipelineRequest chat log src this w = (Throw "TypeError", [], w).
Proof.
  destruct this as [[[|a q]|] [[|b r]|]]; cbn [provider model JS.truthy];
    intros [H|H]; try discriminate; reflexivity.
Qed.

Lemma truthy_cases (v : option string) :
  JS.truthy v = false \/ exists a q, v = Some (String a q).
Proof. destruct v as [[|a q]|]; eauto. Qed.

End FixRequestMore.

(** X8. A chat-completion call is made only for a service with a
    non-empty provider and model and after [setAPIKey] succeeded; the
    request then carries that provider and model, it is the first call and
    the only one of its kind, and when the provider is one of the three
    supported ones its variable holds a non-empty key by then. *)
Theorem fixMyPipelineRequest_chat_call (chat : ChatRequest -> ChatOutcome)
    (log src : string) (this : AIService.t) (w : World) (req : ChatRequest) :
  let R := AIService.fixMyPipelineRequest chat log src this w in
  In (ChatCompletion req) (snd (fst R)) ->
  exists p m,
    AIService.provider this = Some p /\ AIService.model this = Some m
    /\ p <> "" /\ m <> ""
    /\ req = AIService.chatRequest p m log src
    /\ head (snd (fst R)) = Some (ChatCompletion req)
    /\ (forall req', In (ChatCompletion req') (tail (snd (fst R))) -> False)
    /\ AIService.setAPIKey this w = Ok (snd R)
    /\ (forall sp, p = provider_id sp ->
          JS.truthy (env (snd R) !! AIService.keyStr p) = true).
Proof.
  intros R Hin. subst R.
  destruct (truthy_cases (AIService.provider this)) as [Hp|(a & q & Hp)].
  { rewrite fixMyPipelineRequest_unselected in Hin by auto. destruct Hin. }
  destruct (truthy_cases (AIService.model this)) as [Hm|(b & r & Hm)].
  { rewrite fixMyPipelineRequest_unselected in Hin by auto. destruct Hin. }
  destruct this as [pr mo]. cbn [AIService.provider AIService.model] in *.
  subst pr mo. exists (String a q), (String b r).
  rewrite fixMyPipelineRequest_selected in *. cbv zeta in *.
  destruct (AIService.setAPIKey _ w) as [w1|msg] eqn:Hk.
  - assert (Henv : forall sp, String a q = provider_id sp ->
               JS.truthy (env w1 !! AIService.keyStr (String a q)) = true).
    { intros sp Hsp. pose proof Hk as Hk'. rewrite Hsp in Hk' |- *.
      exact (proj1 (setAPIKey_ok_variable sp
                      (AIService.mk (Some (provider_id sp)) (Some (String b r)))
                      w w1 eq_refl Hk')). }
    destruct (chat _) as [|[response|]]; cbn [fst snd head tail] in *.
    + destruct Hin as [H|[H|[]]]; [injection H as <-|discriminate H].
      repeat split; try discriminate; try assumption.
      intros req' [H'|[]]. discriminate H'.
    + destruct Hin as [H|[]]; injection H as <-.
      repeat split; try discriminate; try assumption. intros req' [].
    + destruct Hin as [H|[]]; injection H as <-.
      repeat split; try discriminate; try assumption. intros req' [].
  - cbn [fst snd] in Hin. destruct Hin as [H|[H|[]]]; discriminate H.
Qed.

Lemma fixMyPipelineRequest_chat_call_witness :
  let chat := fun _ : ChatRequest => ChatContent None in
  let this := AIService.mk (Some "openai") (Some "gpt-4o") in
  let w := mkWorld None {["zenml.openai.key" := "sk-1"]} ∅ in
  let req := AIService.chatRequest "openai" "gpt-4o" "log" "code" in
  In (ChatCompletion req)
     (snd (fst (AIService.fixMyPipelineRequest chat "log" "code" this w)))
  /\ JS.truthy
       (env (snd (AIService.fixMyPipelineRequest chat "log" "code" this w))
          !! "OPENAI_API_KEY") = true.
Proof.
  intros chat this w req.
  assert (H : In (ChatCompletion req)
                (snd (fst (AIService.fixMyPipelineRequest chat "log" "code"
                             this w)))) by (left; reflexivity).
  split; [exact H|].
  destruct (fixMyPipelineRequest_chat_call chat "log" "code" this w req H)
    as (p & m & Hp & _ & _ & _ & _ & _ & _ & _ & He).
  injection Hp as <-. exact (He openai eq_refl).
Defined.

(** X9. The chat client is called exactly when provider and model are
    non-empty and [setAPIKey] succeeds; the registration command is
    started exactly when there is such a selection and [setAPIKey]
    throws; the promise rejects exactly when provider or model is null or
    empty, and then no host call at all is made. *)
Theorem fixMyPipelineRequest_paths (chat : ChatRequest -> ChatOutcome)
    (log src : string) (this : AIService.t) (w : World) :
  let R := AIService.fixMyPipelineRequest chat log src this w in
  let calls := snd (fst R) in
  let selected :=
    JS.truthy (AIService.provider this) && JS.truthy (AIService.model this) in
  ((exists req, In (ChatCompletion req) calls)
   <-> selected = true /\ exists w1, AIService.setAPIKey this w = Ok w1)
  /\ (In (ExecuteCommand "zenml.registerLLMAPIKey") calls
      <-> selected = true /\ exists msg, AIService.setAPIKey this w = Throw msg)
  /\ ((exists e, fst (fst R) = Throw e) <-> selected = false)
  /\ (calls = [] <-> selected = false).
Proof.
  intros R calls selected. subst calls selected R.
  destruct (truthy_cases (AIService.provider this)) as [Hp|(a & q & Hp)];
    [|destruct (truthy_cases (AIService.model this)) as [Hm|(b & r & Hm)]].
  - rewrite fixMyPipelineRequest_unselected by auto. rewrite Hp.
    host_calls.
  - rewrite fixMyPipelineRequest_unselected by auto. rewrite Hm.
    rewrite andb_false_r. host_calls.
  - destruct this as [pr mo]. cbn [AIService.provider AIService.model] in *.
    subst pr mo. rewrite fixMyPipelineRequest_selected. cbv zeta.
    cbn [JS.truthy andb].
    destruct (AIService.setAPIKey _ w) as [w1|msg];
      [destruct (chat _) as [|[response|]]|];
      host_calls.
Qed.

(** X10. When the request resolves to a response, the chat client
    returned a text for the selected provider and model, the message is
    that text unchanged, the code entries are the snippets extracted from
    it, each tagged [python], and the chat call is the only host call: no
    message is shown. *)
Theorem fixMyPipelineRequest_response (chat : ChatRequest -> ChatOutcome)
    (log src : string) (this : AIService.t) (w w' : World)
    (resp : FixMyPipelineResponse) (calls : list HostCall) :
  AIService.fixMyPipelineRequest chat log src this w
  = (Ok (Some resp), calls, w') ->
  exists p m,
    AIService.provider this = Some p /\ AIService.model this = Some m
    /\ chat (AIService.chatRequest p m log src)
       = ChatContent (Some (message resp))
    /\ code resp
       = map (fun snippet => ("python", snippet))
           (AIService.extractPythonSnippets (message resp))
    /\ calls = [ChatCompletion (AIService.chatRequest p m log src)]
    /\ AIService.setAPIKey this w = Ok w'.
Proof.
  intros H.
  destruct (truthy_cases (AIService.provider this)) as [Hp|(a & q & Hp)].
  { rewrite fixMyPipelineRequest_unselected in H by auto. discriminate H. }
  destruct (truthy_cases (AIService.model this)) as [Hm|(b & r & Hm)].
  { rewrite fixMyPipelineRequest_unselected in H by auto. discriminate H. }
  destruct this as [pr mo]. cbn [AIService.provider AIService.model] in *.
  subst pr mo. exists (String a q), (String b r).
  rewrite fixMyPipelineRequest_selected in H. cbv zeta in H.
  destruct (AIService.setAPIKey _ w) as [w1|msg]; [|discriminate H].
  destruct (chat _) as [|[response|]] eqn:Hc; try discriminate H.
  injection H as <- <- <-. cbn [message code]. auto 10.
Qed.

Lemma fixMyPipelineRequest_response_witness :
  let chat := fun _ : ChatRequest => ChatContent (Some "```python
x = 1
```") in
  let this := AIService.mk (Some "gemini") (Some "gemini-1.5-pro") in
  let w := mkWorld None ∅ {["GEMINI_API_KEY" := "k"]} in
  exists resp,
    AIService.fixMyPipelineRequest chat "log" "code" this w
    = (Ok (Some resp),
       [ChatCompletion (AIService.chatRequest "gemini" "gemini-1.5-pro"
                          "log" "code")], w)
    /\ code resp = [("python", "x = 1
")].
Proof.
  intros chat this w. eexists. split; [reflexivity|].
  destruct (fixMyPipelineRequest_response chat "log" "code" this w w _ _
              eq_refl) as (p & m & _ & _ & _ & Hcode & _).
  exact Hcode.
Defined.

(** X11. The request never writes to the secret store or to the
    configuration, and the only variable it can change is the provider's
    key variable. *)
Theorem fixMyPipelineRequest_frame (chat : ChatRequest -> ChatOutcome)
    (log src : string) (this : AIService.t) (w : World) :
  let w' := snd (AIService.fixMyPipelineRequest chat log src this w) in
  secrets w' = secrets w
  /\ configuration w' = configuration w
  /\ forall k,
       (forall p, AIService.provider this = Some p -> k <> AIService.keyStr p) ->
       env w' !! k = env w !! k.
Proof.
  intros w'. subst w'.
  destruct (truthy_cases (AIService.provider this)) as [Hp|(a & q & Hp)];
    [|destruct (truthy_cases (AIService.model this)) as [Hm|(b & r & Hm)]].
  - rewrite fixMyPipelineRequest_unselected by auto. auto.
  - rewrite fixMyPipelineRequest_unselected by auto. auto.
  - destruct this as [pr mo]. cbn [AIService.provider AIService.model] in *.
    subst pr mo. rewrite fixMyPipelineRequest_selected. cbv zeta.
    destruct (AIService.setAPIKey _ w) as [w1|msg] eqn:Hk; [|auto].
    pose proof (setAPIKey_ok_frame
                  (AIService.mk (Some (String a q)) (Some (String b r)))
                  w w1 (String a q) eq_refl ltac:(discriminate) Hk)
      as (Hs & Hc & He).
    assert (forall k,
      (forall p, Some (String a q) = Some p -> k <> AIService.keyStr p) ->
      env w1 !! k = env w !! k) by (intros k Hk'; apply He, Hk'; reflexivity).
    destruct (chat _) as [|[response|]]; cbn [snd]; auto.
Qed.

(** X23. With a non-empty provider and model and no non-empty value in
    the provider's variable or under its secret key, the request resolves
    to [undefined], shows the missing-key message naming the provider,
    starts the registration command, in that order, makes no other call
    and leaves the world unchanged. *)
Theorem fixMyPipelineRequest_missing_credential
    (chat : ChatRequest -> ChatOutcome) (log src p m : string)
    (this : AIService.t) (w : World) :
  AIService.provider this = Some p -> AIService.model this = Some m ->
  p <> "" -> m <> "" ->
  JS.truthy (env w !! AIService.keyStr p) = false ->
  JS.truthy (secrets w !! AIService.secretKey p) = false ->
  AIService.fixMyPipelineRequest chat log src this w
  = (Ok None,
     [ShowErrorMessage ("No " +:+ p +:+ " API key configured. Please add an environment variable or save a key through the command palette above and try again.");
      ExecuteCommand "zenml.registerLLMAPIKey"],
     w).
Proof.
  intros Hp Hm Hpne Hmne He Hs.
  destruct (nonempty_cons p Hpne) as (a & q & ->).
  destruct (nonempty_cons m Hmne) as (b & r & ->).
  destruct this as [pr mo]. cbn [AIService.provider AIService.model] in *.
  subst pr mo. rewrite fixMyPipelineRequest_selected. cbv zeta.
  rewrite (setAPIKey_by_source
             (AIService.mk (Some (String a q)) (Some (String b r)))
             w a q eq_refl), He, Hs.
  reflexivity.
Qed.

Lemma fixMyPipelineRequest_missing_credential_witness :
  let w := mkWorld (Some "gemini.gemini-1%2E5-pro")
             {["zenml.openai.key" := "sk-1"]} {["GEMINI_API_KEY" := ""]} in
  fst (AIService.fixMyPipelineRequest (fun _ => ChatThrows) "log" "code"
         (AIService.mk (Some "gemini") (Some "gemini-1.5-pro")) w)
  = (Ok None,
     [ShowErrorMessage (AIService.noKeyMessage "gemini");
      ExecuteCommand "zenml.registerLLMAPIKey"]).
Proof.
  intros w.
  refine (f_equal fst
            (fixMyPipelineRequest_missing_credential (fun _ => ChatThrows)
               "log" "code" "gemini" "gemini-1.5-pro"
               (AIService.mk (Some "gemini") (Some "gemini-1.5-pro")) w
               eq_refl eq_refl _ _ eq_refl eq_refl)); discriminate.
Defined.

(** ** Snippet extraction, fence by fence *)

Section SnippetsMore.

Import AIService.

(** What one segment contributes to the result. *)
Lemma extractPythonSnippets_cons (a : string) (segs : list string) :
  map (JS.slice 7) (List.filter (fun ele => JS.startsWith ele "python") (a :: segs))
  = (if JS.startsWith a "python" then [JS.slice 7 a] else [])
    ++ map (JS.slice 7)
         (List.filter (fun ele => JS.startsWith ele "python") segs).
Proof. cbn [List.filter]. now destruct (JS.startsWith a "python"). Qed.

Lemma includes_cons_false (c : ascii) (s pat : string) :
  JS.includes (String c s) pat = false -> JS.includes s pat = false.
Proof.
  cbn [JS.includes]. intros H. now apply orb_false_iff in H as [_ H].
Qed.

Lemma includes_backtick_append (a b : string) :
  JS.includes a "`" = false -> JS.includes b "`" = false ->
  JS.includes (a +:+ b) "`" = false.
Proof.
  intros Ha Hb. induction a as [|c a IH]; [exact Hb|].
  rewrite append_cons. cbn [JS.includes] in *.
  apply orb_false_iff in Ha as [Hc Ha]. rewrite prefix_char in *.
  now rewrite Hc, IH.
Qed.

End SnippetsMore.

(** X12. Text without a backtick before a fence is one segment of its
    own: the snippets of the whole response are the snippet this text
    gives, if it begins with [python], followed by the snippets of what
    comes after the fence. *)
Theorem extractPythonSnippets_fence (a r : string) :
  JS.includes a "`" = false ->
  AIService.extractPythonSnippets (a +:+ "```" +:+ r)
  = (if JS.startsWith a "python" then [JS.slice 7 a] else [])
    ++ AIService.extractPythonSnippets r.
Proof.
  intros Ha. unfold AIService.extractPythonSnippets, JS.split.
  rewrite split_scan_fence_first by exact Ha.
  rewrite append_nil_l. apply extractPythonSnippets_cons.
Qed.

Lemma extractPythonSnippets_fence_witness :
  AIService.extractPythonSnippets "python3 -m venv```python
a```python
b"
  = [" -m venv"; "a"; "b"].
Proof.
  exact (eq_trans
           (extractPythonSnippets_fence "python3 -m venv" "python
a```python
b" eq_refl) eq_refl).
Defined.

(** X13. A response made of text, a block opened by [```python] and one
    more character, and text yields exactly the block's body after that
    character, whatever the character is, when the texts do not begin
    with [python] and there is no other backtick. *)
Theorem extractPythonSnippets_python_block
    (pre body post : string) (c : ascii) :
  JS.includes pre "`" = false ->
  JS.includes (String c body) "`" = false ->
  JS.includes post "```" = false ->
  JS.startsWith pre "python" = false ->
  JS.startsWith post "python" = false ->
  AIService.extractPythonSnippets
    (pre +:+ "```" +:+ ("python" +:+ String c body) +:+ "```" +:+ post)
  = [body].
Proof.
  intros Hpre Hbody Hpost Hp1 Hp2.
  rewrite (extractPythonSnippets_segments
             [pre; "python" +:+ String c body; post]).
  - cbn [List.filter]. rewrite Hp1, Hp2.
    unfold JS.startsWith at 1. rewrite prefix_append. reflexivity.
  - apply split_one_block; [exact Hpre| |exact Hpost].
    now apply includes_backtick_append.
Qed.

Lemma extractPythonSnippets_python_block_witness :
  AIService.extractPythonSnippets "Fix: ```python3
import os
``` done"
  = ["
import os
"].
Proof.
  refine (extractPythonSnippets_python_block "Fix: " "
import os
" " done" "3" _ _ _ _ _); reflexivity.
Defined.

(** ** The recommendation table under sequences of commands *)

Section TableMore.

Import AIStepFixer.

Lemma find_none_filter {A : Type} (f : A -> bool) (l : list A) :
  List.find f l = None <-> List.filter f l = [].
Proof.
  induction l as [|x l IH]; cbn [List.find List.filter]; [tauto|].
  destruct (f x); [split; discriminate | exact IH].
Qed.

Lemma find_append {A : Type} (f : A -> bool) (l1 l2 : list A) :
  List.find f (l1 ++ l2)
  = match List.find f l1 with
    | Some x => Some x
    | None => List.find f l2
    end.
Proof.
  induction l1 as [|x l1 IH]; cbn [app List.find]; [reflexivity|].
  now destruct (f x).
Qed.

(** The candidate the cycling command takes from an entry with index 0. *)
Lemma nextIndex_zero (rec : CodeRecommendation) :
  currentCodeIndex rec = 0 ->
  code rec !! nextIndex rec
  = match code rec with
    | _ :: second :: _ => Some second
    | only => head only
    end.
Proof.
  intros H. unfold nextIndex. rewrite H.
  now destruct (code rec) as [|x [|y l]].
Qed.

Lemma updateCodeRecommendation_calls (recs : list CodeRecommendation)
    (path : string) (call : HostCall) :
  In call (snd (updateCodeRecommendation recs path)) ->
  exists rec,
    In rec recs /\ filePath rec = path
    /\ call = EditStepFile path (code rec !! nextIndex rec) (sourceCode rec)
                false.
Proof.
  unfold updateCodeRecommendation.
  destruct (List.find _ recs) as [rec|] eqn:Hf; cbn [snd]; [|intros []].
  intros [<-|[]]. apply find_some in Hf as [Hin Heq].
  apply String.eqb_eq in Heq. eauto.
Qed.

Lemma run_index_zero (cmds : list Session.Command) :
  forall recs,
    Forall (fun rec => currentCodeIndex rec = 0) recs ->
    Forall (fun rec => currentCodeIndex rec = 0) (Session.run cmds recs).
Proof.
  induction cmds as [|c cmds IH]; intros recs H; [exact H|].
  unfold Session.run in *. cbn [fold_left]. apply IH.
  destruct c as [path candidates src|path]; cbn [Session.step].
  - unfold createCodeRecommendation. cbn [fst].
    apply Forall_app. split; [exact H|]. now repeat constructor.
  - now rewrite updateCodeRecommendation_table.
Qed.

End TableMore.

(** X14. [updateCodeRecommendation] never changes the table; it makes no
    call when no entry carries the path and otherwise one call, a
    non-previewing edit of that path taken from an entry carrying it; so
    calling it again makes the same call. *)
Theorem updateCodeRecommendation_effect
    (recs : list AIStepFixer.CodeRecommendation) (path : string) :
  fst (AIStepFixer.updateCodeRecommendation recs path) = recs
  /\ (snd (AIStepFixer.updateCodeRecommendation recs path) = []
      <-> AIStepFixer.entriesFor path recs = [])
  /\ length (snd (AIStepFixer.updateCodeRecommendation recs path)) <= 1
  /\ (forall call,
        In call (snd (AIStepFixer.updateCodeRecommendation recs path)) ->
        exists rec,
          In rec recs /\ AIStepFixer.filePath rec = path
          /\ call = EditStepFile path
                      (AIStepFixer.code rec !! AIStepFixer.nextIndex rec)
                      (AIStepFixer.sourceCode rec) false)
  /\ AIStepFixer.updateCodeRecommendation
       (fst (AIStepFixer.updateCodeRecommendation recs path)) path
     = AIStepFixer.updateCodeRecommendation recs path.
Proof.
  split; [apply updateCodeRecommendation_table|].
  split; [|split; [|split]].
  - unfold AIStepFixer.entriesFor. rewrite <- find_none_filter.
    unfold AIStepFixer.updateCodeRecommendation.
    destruct (List.find _ recs); cbn [snd]; split; intros H;
      reflexivity || discriminate H.
  - unfold AIStepFixer.updateCodeRecommendation.
    destruct (List.find _ recs); cbn [snd length]; lia.
  - apply updateCodeRecommendation_calls.
  - now rewrite updateCodeRecommendation_table.
Qed.

(** X15. After [createCodeRecommendation] for a path the table did not
    carry, [updateCodeRecommendation] for that path applies the second
    candidate against the snippet just given, the only candidate when
    there is just one, and [undefined] when there is none. *)
Theorem create_then_update_fresh
    (recs : list AIStepFixer.CodeRecommendation) (path : string)
    (candidates : list string) (src : string) :
  AIStepFixer.entriesFor path recs = [] ->
  AIStepFixer.updateCodeRecommendation
    (fst (AIStepFixer.createCodeRecommendation recs path candidates src)) path
  = (recs ++ [AIStepFixer.mkRec path candidates src 0],
     [EditStepFile path
        match candidates with
        | _ :: second :: _ => Some second
        | only => head only
        end
        src false]).
Proof.
  intros H. apply find_none_filter in H.
  unfold AIStepFixer.createCodeRecommendation, AIStepFixer.updateCodeRecommendation.
  cbn [fst]. rewrite find_append, H. cbn [List.find AIStepFixer.filePath].
  rewrite String.eqb_refl. cbn [AIStepFixer.sourceCode].
  rewrite nextIndex_zero by reflexivity.
  now destruct candidates as [|x [|y l]].
Qed.

Lemma create_then_update_fresh_witness :
  AIStepFixer.updateCodeRecommendation
    (fst (AIStepFixer.createCodeRecommendation [] "a.py" ["only"] "src")) "a.py"
  = ([AIStepFixer.mkRec "a.py" ["only"] "src" 0],
     [EditStepFile "a.py" (Some "only") "src" false]).
Proof. exact (create_then_update_fresh [] "a.py" ["only"] "src" eq_refl). Defined.

(** X16. For a path the table already carries, a further
    [createCodeRecommendation] does not change what
    [updateCodeRecommendation] applies for that path. *)
Theorem create_then_update_tracked
    (recs : list AIStepFixer.CodeRecommendation) (path : string)
    (candidates : list string) (src : string) :
  AIStepFixer.entriesFor path recs <> [] ->
  snd (AIStepFixer.updateCodeRecommendation
         (fst (AIStepFixer.createCodeRecommendation recs path candidates src))
         path)
  = snd (AIStepFixer.updateCodeRecommendation recs path).
Proof.
  intros H.
  unfold AIStepFixer.createCodeRecommendation, AIStepFixer.updateCodeRecommendation.
  cbn [fst]. rewrite find_append.
  destruct (List.find _ recs) as [rec|] eqn:Hf; [reflexivity|].
  apply find_none_filter in Hf. contradiction.
Qed.

Lemma create_then_update_tracked_witness :
  let recs := [AIStepFixer.mkRec "a.py" ["x0"; "x1"] "old" 0] in
  snd (AIStepFixer.updateCodeRecommendation
         (fst (AIStepFixer.createCodeRecommendation recs "a.py"
                 ["y0"; "y1"] "new")) "a.py")
  = [EditStepFile "a.py" (Some "x1") "old" false].
Proof.
  intros recs.
  refine (create_then_update_tracked recs "a.py" ["y0"; "y1"] "new" _).
  discriminate.
Defined.

(** X17. In every table built from the empty one by creations and
    cycling commands, in any order, every entry has index 0; so cycling
    always applies the second candidate of an entry (the only one when
    there is just one). *)
Theorem run_keeps_index_zero (cmds : list Session.Command) (path : string) :
  Forall (fun rec => AIStepFixer.currentCodeIndex rec = 0) (Session.run cmds [])
  /\ forall call,
       In call (snd (AIStepFixer.updateCodeRecommendation
                       (Session.run cmds []) path)) ->
       exists rec,
         In rec (Session.run cmds [])
         /\ call = EditStepFile path
                     match AIStepFixer.code rec with
                     | _ :: second :: _ => Some second
                     | only => head only
                     end
                     (AIStepFixer.sourceCode rec) false.
Proof.
  assert (H0 := run_index_zero cmds [] (List.Forall_nil _)).
  split; [exact H0|]. intros call Hin.
  destruct (updateCodeRecommendation_calls _ _ _ Hin) as (rec & Hrec & _ & ->).
  exists rec. split; [exact Hrec|].
  rewrite nextIndex_zero; [reflexivity|].
  exact (proj1 (List.Forall_forall _ _) H0 rec Hrec).
Qed.

(** ** The range [editStepFile] replaces *)

Section RangeMore.

Import StepFile.

(** Splitting on one character gives one segment more than the character
    occurs. *)
Lemma split_scan_char_length (d : ascii) :
  forall s cur,
    length (JS.split_scan (String d "") 0 cur s) = 1 + occurrences d s.
Proof.
  induction s as [|c s IH]; intros cur; [reflexivity|].
  cbn [JS.split_scan occurrences]. rewrite prefix_char.
  destruct (ascii_dec d c).
  - cbn [String.length Nat.sub length]. now rewrite IH.
  - now rewrite IH.
Qed.

End RangeMore.

(** X18. When the file can be read, [editStepFile] reads it and submits
    one edit whose range starts at column 0 of the line the helper found
    (line 0 when it found none) and ends at column 0 of the line one plus
    the number of line feeds of the old content further down, so the range
    is never empty; the comparison view is opened only after a successful
    previewing edit, and the failure notice is shown exactly when the edit
    is refused. *)
Theorem editStepFile_range
    (findFirstLineNumber : string -> string -> option nat)
    (readFile : string -> Result string)
    (applyEdit : string -> StepFile.Range -> option string -> bool)
    (filePath : string) (newContent : option string) (oldContent : string)
    (open : bool) (fileContents : string) :
  readFile filePath = Ok fileContents ->
  let first := default 0 (findFirstLineNumber fileContents oldContent) in
  let r := StepFile.mkRange (StepFile.mkPosition first 0)
             (StepFile.mkPosition
                (first + 1 + StepFile.occurrences StepFile.LF oldContent) 0) in
  StepFile.editStepFile findFirstLineNumber readFile applyEdit
    filePath newContent oldContent open
  = Ok ([StepFile.ReadFile filePath; StepFile.ApplyEdit filePath r newContent]
        ++ (if applyEdit filePath r newContent
            then if open then [StepFile.CompareWithSaved filePath] else []
            else [StepFile.InformationMessage "Error!"]))
  /\ StepFile.line (StepFile.range_start r) < StepFile.line (StepFile.range_end r).
Proof.
  intros Hread first r.
  assert (Hr : StepFile.oldRange findFirstLineNumber fileContents oldContent = r).
  { unfold StepFile.oldRange, JS.split. cbv zeta. cbn [StepFile.line].
    rewrite split_scan_char_length. subst r first.
    do 2 f_equal. lia. }
  split.
  - unfold StepFile.editStepFile. rewrite Hread. cbv zeta. rewrite Hr.
    now destruct (applyEdit filePath r newContent), open.
  - subst r. cbn [StepFile.range_start StepFile.range_end StepFile.line]. lia.
Qed.

Lemma editStepFile_range_witness :
  let find := fun _ _ : string => @None nat in
  let readFile := fun _ : string => Ok "a = 1
b = 2
" in
  let applyEdit :=
    fun (_ : string) (_ : StepFile.Range) (_ : option string) => true in
  let r := StepFile.mkRange (StepFile.mkPosition 0 0) (StepFile.mkPosition 2 0) in
  StepFile.editStepFile find readFile applyEdit "a.py" (Some "c = 3") "x
y" false
  = Ok [StepFile.ReadFile "a.py"; StepFile.ApplyEdit "a.py" r (Some "c = 3")].
Proof.
  intros find readFile applyEdit r.
  exact (proj1 (editStepFile_range find readFile applyEdit "a.py"
                  (Some "c = 3") "x
y" false "a = 1
b = 2
" eq_refl)).
Defined.

(** ** Registering a credential, case by case *)

(** X19. When the quick pick or the input box is dismissed,
    [registerLLMAPIKey] writes nothing: the world is unchanged, the last
    call is the cancellation warning, and no success message is shown. *)
Theorem registerLLMAPIKey_canceled (picked entered : option string)
    (w : World) :
  picked = None \/ entered = None ->
  let R := SecretsCommands.registerLLMAPIKey picked entered w in
  fst R = w
  /\ last (snd R) = Some (ShowWarningMessage SecretsCommands.canceledMessage)
  /\ forall msg, ~ In (ShowInformationMessage msg) (snd R).
Proof.
  intros H R. subst R. unfold SecretsCommands.registerLLMAPIKey.
  destruct picked as [label|]; [destruct entered as [apiKey|]|].
  - destruct H as [H|H]; discriminate H.
  - cbn [fst snd In]. repeat split. intros msg [H'|[H'|[H'|[]]]]; discriminate H'.
  - cbn [fst snd In]. repeat split. intros msg [H'|[H'|[]]]; discriminate H'.
Qed.

Lemma registerLLMAPIKey_canceled_witness :
  let w := mkWorld None {["zenml.openai.key" := "sk-1"]} ∅ in
  fst (SecretsCommands.registerLLMAPIKey (Some "OpenAI") None w) = w.
Proof.
  intros w.
  exact (proj1 (registerLLMAPIKey_canceled (Some "OpenAI") None w
                  (or_intror eq_refl))).
Defined.

(** X20. A completed registration stores the entered key under the
    label's secret key and in the label's variable, reports success, and
    touches no other secret, no other variable and not the
    configuration. *)
Theorem registerLLMAPIKey_frame (label apiKey : string) (w : World) :
  let R := SecretsCommands.registerLLMAPIKey (Some label) (Some apiKey) w in
  secrets (fst R) !! SecretsCommands.secretKey label = Some apiKey
  /\ env (fst R) !! SecretsCommands.envKey label = Some apiKey
  /\ (forall k, k <> SecretsCommands.secretKey label ->
        secrets (fst R) !! k = secrets w !! k)
  /\ (forall k, k <> SecretsCommands.envKey label ->
        env (fst R) !! k = env w !! k)
  /\ configuration (fst R) = configuration w
  /\ last (snd R)
     = Some (ShowInformationMessage (label +:+ " API key stored successfully.")).
Proof.
  intros R. subst R.
  unfold SecretsCommands.registerLLMAPIKey, set_env, set_secret.
  cbn [fst snd secrets env configuration].
  split; [apply lookup_insert_eq|]. split; [apply lookup_insert_eq|].
  split; [intros k Hk; now rewrite lookup_insert_ne|].
  split; [intros k Hk; now rewrite lookup_insert_ne|].
  split; reflexivity.
Qed.

(** X21. Registering again for the same label replaces the stored key,
    and the second prompt says that a key already exists exactly when the
    first key was not empty. *)
Theorem registerLLMAPIKey_again (label k1 k2 : string) (w : World) :
  let w1 := fst (SecretsCommands.registerLLMAPIKey (Some label) (Some k1) w) in
  let R := SecretsCommands.registerLLMAPIKey (Some label) (Some k2) w1 in
  secrets (fst R) !! SecretsCommands.secretKey label = Some k2
  /\ env (fst R) !! SecretsCommands.envKey label = Some k2
  /\ (In (ShowInputBox
            (label +:+ " API Key already exists, enter a new value to update."))
         (snd R)
      <-> k1 <> "").
Proof.
  intros w1 R. subst R w1.
  unfold SecretsCommands.registerLLMAPIKey, SecretsCommands.inputPrompt,
    set_env, set_secret.
  cbn [fst snd secrets env configuration].
  split; [apply lookup_insert_eq|]. split; [apply lookup_insert_eq|].
  rewrite lookup_insert_eq.
  destruct k1 as [|c k1]; cbn [JS.truthy In]; split.
  - intros [H|[H|[H|[]]]]; try discriminate H.
    injection H as H.
    assert (E : String.length ("Please enter your " +:+ label +:+ " API key")
                = String.length (label +:+ " API Key already exists, enter a new value to update."))
      by now rewrite H.
    clear H. revert E. generalize label. clear.
    intros label E. exfalso.
    assert (L : forall a b, String.length (a +:+ b)
                            = String.length a + String.length b).
    { intros a b. induction a as [|x a IH]; [reflexivity|].
      rewrite append_cons. cbn [String.length]. now rewrite IH. }
    rewrite !L in E. cbn [String.length] in E. lia.
  - intros H. congruence.
  - discriminate.
  - intros _. right. left. reflexivity.
Qed.

(** X22. Submitting the input box empty registers the empty string and
    reports success, and for the provider whose keys the label maps to,
    [setAPIKey] then throws the missing-key error, whatever was stored or
    set before. *)
Theorem registerLLMAPIKey_empty_then_setAPIKey
    (label p : string) (this : AIService.t) (w : World) :
  p <> "" -> AIService.provider this = Some p ->
  SecretsCommands.secretKey label = AIService.secretKey p ->
  SecretsCommands.envKey label = AIService.keyStr p ->
  let R := SecretsCommands.registerLLMAPIKey (Some label) (Some "") w in
  last (snd R)
  = Some (ShowInformationMessage (label +:+ " API key stored successfully."))
  /\ AIService.setAPIKey this (fst R) = Throw (AIService.noKeyMessage p).
Proof.
  intros Hne Hp Hs He R. subst R. split; [reflexivity|].
  destruct (nonempty_cons p Hne) as (a & q & ->).
  rewrite (setAPIKey_by_source this _ a q Hp).
  destruct (registerLLMAPIKey_stores label "" w) as [H1 H2].
  cbv zeta in H1, H2. rewrite Hs in H1. rewrite He in H2.
  now rewrite H1, H2.
Qed.

Lemma registerLLMAPIKey_empty_then_setAPIKey_witness :
  let w := mkWorld None {["zenml.openai.key" := "sk-old"]}
             {["OPENAI_API_KEY" := "sk-old"]} in
  AIService.setAPIKey (AIService.mk (Some "openai") (Some "gpt-4o"))
    (fst (SecretsCommands.registerLLMAPIKey (Some "OpenAI") (Some "") w))
  = Throw (AIService.noKeyMessage "openai").
Proof.
  intros w.
  refine (proj2 (registerLLMAPIKey_empty_then_setAPIKey "OpenAI" "openai"
                   (AIService.mk (Some "openai") (Some "gpt-4o")) w
                   _ eq_refl eq_refl eq_refl)).
  discriminate.
Defined.
